(** * SQL builder of the Snowflake SDK: a shallow embedding

    The development follows [pkg/sdk]: the tag-driven encoder
    ([structToSQL], [parseStruct], [parseField], ...), its modifiers and
    clauses, and the grant operations of [grants.go].

    Go strings are byte strings and are modelled by [string]; every
    function of package [strings] used by the sources is written out below
    at byte level.  The separators and cut sets of the sources are ASCII,
    for which byte level and rune level agree; [TrimSpace] and [ToLower]
    work on characters, and are written out on their UTF-8 encodings. *)

From Stdlib Require Import Bool List ZArith Lia Ascii String DecimalString.
Import ListNotations.

Local Open Scope string_scope.
Local Open Scope list_scope.

Set Implicit Arguments.
Set Warnings "-register-all".

(** ** Package [strings] *)

Module strings.

(** [strings.HasPrefix]; note the argument order of the sources:
    the string first, the prefix second. *)
Fixpoint HasPrefix (s p : string) {struct p} : bool :=
  match p, s with
  | EmptyString, _ => true
  | String _ _, EmptyString => false
  | String a p', String b s' => Ascii.eqb a b && HasPrefix s' p'
  end.

(** [strings.HasSuffix]; the sources do not call it, it serves to write
    [TrimSpace] and to state what [Trim] achieves. *)
Fixpoint HasSuffix (s p : string) : bool :=
  match s with
  | EmptyString => String.eqb p ""
  | String _ s' => String.eqb s p || HasSuffix s' p
  end.

(** [strings.Contains]. *)
Fixpoint Contains (s sub : string) : bool :=
  HasPrefix s sub ||
  match s with
  | EmptyString => false
  | String _ s' => Contains s' sub
  end.

(** [strings.Join]. *)
Fixpoint Join (elems : list string) (sep : string) : string :=
  match elems with
  | [] => ""
  | [e] => e
  | e :: rest => e ++ sep ++ Join rest sep
  end.

(** Membership of a byte in a cut set. *)
Fixpoint inCutset (c : ascii) (cutset : string) : bool :=
  match cutset with
  | EmptyString => false
  | String d rest => Ascii.eqb c d || inCutset c rest
  end.

(** [strings.TrimLeft]. *)
Fixpoint TrimLeft (s cutset : string) : string :=
  match s with
  | EmptyString => ""
  | String c s' => if inCutset c cutset then TrimLeft s' cutset else s
  end.

(** [strings.TrimRight]. *)
Fixpoint TrimRight (s cutset : string) : string :=
  match s with
  | EmptyString => ""
  | String c s' =>
      match TrimRight s' cutset with
      | EmptyString => if inCutset c cutset then "" else String c ""
      | r => String c r
      end
  end.

(** [strings.Trim]. *)
Definition Trim (s cutset : string) : string :=
  TrimRight (TrimLeft s cutset) cutset.

(** The white space of [unicode.IsSpace] below U+0080. *)
Definition asciiSpace : string :=
  String (ascii_of_nat 9) (String (ascii_of_nat 10) (String (ascii_of_nat 11)
  (String (ascii_of_nat 12) (String (ascii_of_nat 13) " ")))).

(** A string given by its bytes. *)
Definition bytes (l : list nat) : string :=
  string_of_list_ascii (map ascii_of_nat l).

(** The UTF-8 encodings of the white space of [unicode.IsSpace]: the six
    characters below U+0080, then U+0085, U+00A0, U+1680, U+2000 to
    U+200A, U+2028, U+2029, U+202F, U+205F and U+3000.  A string starts
    (ends) with a white-space character iff it starts (ends) with one of
    these encodings: decoding accepts the shortest encoding only, and
    bytes that do not decode count as U+FFFD, which is no white space. *)
Definition spaceEncodings : list string :=
  map (fun c => String c "") (list_ascii_of_string asciiSpace)
  ++ [bytes [194; 133]; bytes [194; 160]; bytes [225; 154; 128]]
  ++ map (fun n => bytes [226; 128; 128 + n]) (seq 0 11)
  ++ [bytes [226; 128; 168]; bytes [226; 128; 169]; bytes [226; 128; 175];
      bytes [226; 129; 159]; bytes [227; 128; 128]].

(** [strings.TrimLeftFunc(s, unicode.IsSpace)]: white-space characters are
    dropped from the start, one per round; [rounds] bounds their number. *)
Fixpoint trimSpaceLeft (rounds : nat) (s : string) : string :=
  match rounds with
  | O => s
  | S rounds' =>
      match find (HasPrefix s) spaceEncodings with
      | Some e =>
          trimSpaceLeft rounds'
            (substring (String.length e) (String.length s - String.length e) s)
      | None => s
      end
  end.

(** [strings.TrimRightFunc(s, unicode.IsSpace)]. *)
Fixpoint trimSpaceRight (rounds : nat) (s : string) : string :=
  match rounds with
  | O => s
  | S rounds' =>
      match find (HasSuffix s) spaceEncodings with
      | Some e =>
          trimSpaceRight rounds' (substring 0 (String.length s - String.length e) s)
      | None => s
      end
  end.

(** [strings.TrimSpace]: the white space at both ends is removed, that of
    [unicode.IsSpace].  The sources of Go scan the ASCII white space first
    and hand over to [TrimFunc] or [TrimRightFunc] at the first byte from
    U+0080 on, which gives the same string.  No more characters can be
    dropped than the string has bytes. *)
Definition TrimSpace (s : string) : string :=
  let t := trimSpaceLeft (String.length s) s in
  trimSpaceRight (String.length t) t.

(** Whether all bytes of a string are below U+0080. *)
Fixpoint isASCII (s : string) : bool :=
  match s with
  | EmptyString => true
  | String c s' => (nat_of_ascii c <? 128)%nat && isASCII s'
  end.

(** [strings.ToLower] on a string of ASCII bytes: the letters A to Z are
    lowered, other bytes are kept. *)
Definition lowerByte (c : ascii) : ascii :=
  let n := nat_of_ascii c in
  if (65 <=? n)%nat && (n <=? 90)%nat then ascii_of_nat (n + 32) else c.

Fixpoint lowerASCII (s : string) : string :=
  match s with
  | EmptyString => ""
  | String c s' => String (lowerByte c) (lowerASCII s')
  end.

(** [strings.ToLower].  A string with a byte from U+0080 on is mapped
    character by character with [unicode.ToLower], whose tables are not
    among the sources: [mapUnicodeToLower] stands for
    [strings.Map(unicode.ToLower, s)]. *)
Definition ToLower (mapUnicodeToLower : string -> string) (s : string) : string :=
  if isASCII s then lowerASCII s else mapUnicodeToLower s.

(** The scan shared by [Split] and [ReplaceAll]: matches of [sep] are
    found left to right and do not overlap.  [skip] counts the bytes of a
    match still to be passed over, [cur] is the piece being collected. *)
Fixpoint splitFrom (sep s : string) (skip : nat) (cur : string) : list string :=
  match s with
  | EmptyString => [cur]
  | String c s' =>
      match skip with
      | S k => splitFrom sep s' k cur
      | O =>
          if HasPrefix s sep
          then cur :: splitFrom sep s' (String.length sep - 1) ""
          else splitFrom sep s' 0 (cur ++ String c "")
      end
  end.

(** One string per byte: what [Split] does for an empty separator. *)
Fixpoint explode (s : string) : list string :=
  match s with
  | EmptyString => []
  | String c s' => String c "" :: explode s'
  end.

(** [strings.Split]. *)
Definition Split (s sep : string) : list string :=
  match sep with
  | EmptyString => explode s
  | _ => splitFrom sep s 0 ""
  end.

(** [strings.ReplaceAll]: the pieces between the matches of [old], joined
    by [new].  For an empty [old] Go inserts [new] around every
    character. *)
Definition ReplaceAll (s old new : string) : string :=
  match old with
  | EmptyString => new ++ Join (explode s) new ++ (if String.eqb s "" then "" else new)
  | _ => Join (splitFrom old s 0 "") new
  end.

End strings.


(** The double-quote character, the single-quote character, and the
    backslash-quote pair that escapes a single quote. *)
Definition dquote : string := String (ascii_of_nat 34) "".
Definition squote : string := "'".
Definition backslash_squote : string := "\'".

(** ** Results of fallible calls

    A Go call of the encoder returns a value, returns an [error], or
    panics.  What a panic carries is recorded by its cause; the texts of
    the run time name the types involved, which the development does not
    carry. *)

Inductive error : Type :=
| Errorf (msg : string)
| ErrInvalidObjectIdentifier.

Inductive Kind : Type :=
| Invalid | Bool | Int | String_ | Ptr | Interface | Slice | Struct.

Inductive panic : Type :=
| FailedAssertion (asserted : string)
    (* a single-valued type assertion to the type named failed *)
| UnaddressableValue
    (* [reflect.Value.UnsafeAddr] of a value that is not addressable *)
| NoLength (kind : Kind)
    (* [reflect.Value.Len] of a value of a kind that has no length *)
| NilReceiver
    (* a value method called through a nil pointer *)
| RecursionBound.
    (* the bound of [parseStructFuel] below; it is never reached *)

Inductive outcome (A : Type) : Type :=
| Ok (a : A)
| Err (e : error)
| Panic (p : panic).

Arguments Ok {A} a.
Arguments Err {A} e.
Arguments Panic {A} p.

Definition bind {A B : Type} (m : outcome A) (k : A -> outcome B) : outcome B :=
  match m with
  | Ok a => k a
  | Err e => Err e
  | Panic p => Panic p
  end.

Notation "x <- m ;; k" := (bind m (fun x => k))
  (at level 61, m at next level, right associativity).

(** ** Identifiers

    [Identifier] and [ObjectIdentifier] are interfaces.  A value that
    implements [Identifier] is represented by what its methods return:
    [Name ()], and [FullyQualifiedName ()] when it also implements
    [ObjectIdentifier]. *)

Record Identifier : Type := mkIdentifier {
  Name : string;
  FullyQualifiedName : option string
}.

(** ** Values seen through package [reflect] *)

Definition Kind_eqb (a b : Kind) : bool :=
  match a, b with
  | Invalid, Invalid | Bool, Bool | Int, Int | String_, String_
  | Ptr, Ptr | Interface, Interface | Slice, Slice | Struct, Struct => true
  | _, _ => false
  end.

(** [Kind.String]. *)
Definition Kind_String (k : Kind) : string :=
  match k with
  | Invalid => "invalid"
  | Bool => "bool"
  | Int => "int"
  | String_ => "string"
  | Ptr => "ptr"
  | Interface => "interface"
  | Slice => "slice"
  | Struct => "struct"
  end.

(** [reflect.StructTag]: the key/value pairs of a field's tag. *)
Definition StructTag : Type := list (string * string).

(** [StructTag.Get]: the value of the first pair with that key, the empty
    string when there is none. *)
Fixpoint Get (tag : StructTag) (key : string) : string :=
  match tag with
  | [] => ""
  | (k, v) :: rest => if String.eqb k key then v else Get rest key
  end.

(** [reflect.StructField]: the name, what [IsExported] reports (the
    package path is empty), the kind of the declared type and the tag. *)
Record StructField : Type := mkField {
  FieldName : string;
  IsExported : bool;
  TypeKind : Kind;
  Tag : StructTag
}.

(** The value under a defined type whose underlying type is [bool], [int]
    or [string]. *)
Inductive scalar : Type :=
| SBool (b : bool)
| SInt (n : Z)
| SString (s : string).

(** A Go value as the encoder can observe it.  [VBool], [VInt] and
    [VString] are values of the predeclared types [bool], [int] and
    [string].  [VDefined] is a value of a defined type over one of them: it
    carries the [Identifier] methods of the type, when it has them, and the
    text that [fmt] obtains for it from the [Format], [Error] or [String]
    method of the type, when it has one.  [VPtr None] is a nil pointer and
    [VNilIdentifier] a nil pointer to a type that has the [Identifier]
    methods: the pointer type has them too, and calling them through the
    nil pointer panics.  [VIface] is a field of interface type with its
    dynamic value.  A struct carries the [Identifier] methods of its type,
    when it has them, and its fields in declaration order. *)
Inductive value : Type :=
| VBool (b : bool)
| VInt (n : Z)
| VString (s : string)
| VDefined (methods : option Identifier) (text : option string) (under : scalar)
| VPtr (p : option value)
| VNilIdentifier
| VIface (d : option value)
| VSlice (elems : list value)
| VStruct (methods : option Identifier) (fields : list (StructField * value)).

(** [interface{}]: [None] is the nil interface. *)
Definition any : Type := option value.

(** [reflect.Value.Kind]; the zero [reflect.Value] is [None]. *)
Definition KindOf (v : option value) : Kind :=
  match v with
  | None => Invalid
  | Some (VBool _) | Some (VDefined _ _ (SBool _)) => Bool
  | Some (VInt _) | Some (VDefined _ _ (SInt _)) => Int
  | Some (VString _) | Some (VDefined _ _ (SString _)) => String_
  | Some (VPtr _) | Some VNilIdentifier => Ptr
  | Some (VIface _) => Interface
  | Some (VSlice _) => Slice
  | Some (VStruct _ _) => Struct
  end.

(** What a pointer points to: nothing for a nil pointer; a value that is
    no pointer is kept. *)
Definition deref (x : value) : option value :=
  match x with
  | VPtr p => p
  | VNilIdentifier => None
  | _ => Some x
  end.

(** A valid [reflect.Value]: the Go value it holds with the two flags
    that the encoder depends on.  [flagRO] is set on a value obtained
    through an unexported field, for which [CanInterface] is false;
    [flagAddr] on an addressable value, for which [CanAddr] is true. *)
Record Value : Type := mkValue {
  flagRO : bool;
  flagAddr : bool;
  val : value
}.

(** [reflect.ValueOf] of an [interface{}] that is not nil: neither flag
    is set. *)
Definition ValueOf (x : value) : Value := mkValue false false x.

(** [reflect.Value.Field]: the field is addressable when the struct is,
    and read-only when the struct is or the field is not exported.  [x] is
    the value that the struct has in that field.  The struct on which
    [parseStruct] calls it comes from [reflect.ValueOf] and is not
    read-only. *)
Definition Field (v : Value) (field : StructField) (x : value) : Value :=
  mkValue (flagRO v || negb (IsExported field)) (flagAddr v) x.

(** [reflect.Value.Index] on a slice: an element is addressable, and
    read-only when the slice is.  [e] is the element at that index. *)
Definition Index (v : Value) (e : value) : Value :=
  mkValue (flagRO v) true e.

(** The step [if value.Kind() == reflect.Ptr { value = value.Elem() }] of
    the sources: what a pointer points to is addressable and read-only
    when the pointer is; [Elem] of a nil pointer is the zero
    [reflect.Value], which is [None]; a value that is no pointer is
    kept. *)
Definition indirect (v : Value) : option Value :=
  match deref (val v) with
  | Some w =>
      Some (mkValue (flagRO v) (Kind_eqb (KindOf (Some (val v))) Ptr || flagAddr v) w)
  | None => None
  end.

(** The result of the type assertion [v.(Identifier)]. *)
Inductive assertion : Type :=
| NotIdentifier
| IsIdentifier (i : Identifier)
| NilIdentifier.

(** The type assertion [v.(Identifier)]: it holds of a value whose type
    has the methods and of a pointer to such a value, nil pointers
    included; [NilIdentifier] is the identifier whose methods panic. *)
Definition asIdentifier (v : any) : assertion :=
  let methodsOf (m : option Identifier) :=
    match m with Some i => IsIdentifier i | None => NotIdentifier end in
  match v with
  | Some (VStruct m _) => methodsOf m
  | Some (VDefined m _ _) => methodsOf m
  | Some (VPtr (Some (VStruct m _))) => methodsOf m
  | Some (VPtr (Some (VDefined m _ _))) => methodsOf m
  | Some VNilIdentifier => NilIdentifier
  | _ => NotIdentifier
  end.

(** The type assertion [v.(bool)]: it holds of the predeclared type
    only; [None] is its failure, on which the sources panic. *)
Definition asBool (v : any) : option bool :=
  match v with
  | Some (VBool b) => Some b
  | _ => None
  end.

(** [reflect.Value.Interface]: the value as an [interface{}]; a value of
    interface type yields its dynamic value, nil when it has none. *)
Definition Value_Interface (x : value) : any :=
  match x with
  | VIface d => d
  | _ => Some x
  end.

(** [sqlBuilder.getInterface].  A value that is not read-only is returned
    by [Interface]; a read-only one is read at its address, which
    [UnsafeAddr] gives for an addressable value only. *)
Definition getInterface (field : Value) : outcome any :=
  if negb (flagRO field) then Ok (Value_Interface (val field))
  else if flagAddr field then Ok (Value_Interface (val field))
  else Panic UnaddressableValue.

(** A Go string passed where an [interface{}] is expected. *)
Definition str (s : string) : any := Some (VString s).

(** ** Modifiers

    The modifier types are string types; their constants are the strings
    of the sources. *)

Definition modifierType : Type := string.
Definition quoteModifierType : modifierType := "quotes".
Definition parenModifierType : modifierType := "paren".
Definition reverseModifierType : modifierType := "reverse".
Definition equalsModifierType : modifierType := "equals".

Definition quoteModifier : Type := string.
Definition NoQuotes : quoteModifier := "no_quotes".
Definition DoubleQuotes : quoteModifier := "double_quotes".
Definition SingleQuotes : quoteModifier := "single_quotes".

Definition parenModifier : Type := string.
Definition NoParentheses : parenModifier := "no_parentheses".
Definition Parentheses : parenModifier := "parentheses".

Definition reverseModifier : Type := string.
Definition NoReverse : reverseModifier := "no_reverse".
Definition Reverse : reverseModifier := "reverse".

Definition equalsModifier : Type := string.
Definition Equals : equalsModifier := "equals".
Definition NoEquals : equalsModifier := "no_equals".

(** [quoteModifier.String]. *)
Definition quoteModifier_String (qm : quoteModifier) : string :=
  if String.eqb qm NoQuotes then ""
  else if String.eqb qm DoubleQuotes then dquote
  else if String.eqb qm SingleQuotes then squote
  else "".

(** Exchange of the elements at two indices of a slice. *)
Definition swap (l : list string) (i j : nat) : list string :=
  let a := nth i l "" in
  let b := nth j l "" in
  let set k x m := firstn k m ++ x :: skipn (S k) m in
  set j a (set i b l).

(** The loop of [reverseModifier.Modify], which runs [i] from
    [len/2 - 1] down to 0; [n] is the number of rounds left, the current
    index is [n - 1]. *)
Fixpoint reverseLoop (n : nat) (l : list string) : list string :=
  match n with
  | O => l
  | S i => reverseLoop i (swap l i (List.length l - 1 - i))
  end.

(** [reverseModifier.Modify]; its argument is a [[]string] at its only
    call site. *)
Definition reverseModifier_Modify (rm : reverseModifier) (v : list string) : string :=
  if String.eqb rm NoReverse then strings.Join v " "
  else if String.eqb rm Reverse
       then strings.Join (reverseLoop (Nat.div (List.length v) 2) v) " "
       else strings.Join v " ".

Section SDK.

(** [strings.Map(unicode.ToLower, s)], to which [strings.ToLower] hands a
    string that is not ASCII; the tables of package [unicode] are not
    among the sources, the mapping is a parameter of the development. *)
Variable mapUnicodeToLower : string -> string.

(** [sqlBuilder.getModifier].  The conversion of the trimmed part to the
    modifier type asked for keeps its text, and every call site asserts
    the family it asked for, so the result is given as that text. *)
Fixpoint getModifierParts (parts : list string) (modType : modifierType)
    (defaultMod : string) : string :=
  match parts with
  | [] => defaultMod
  | part :: rest =>
      if strings.Contains part modType
         && (String.eqb modType quoteModifierType
             || String.eqb modType parenModifierType
             || String.eqb modType equalsModifierType
             || String.eqb modType reverseModifierType)
      then strings.TrimSpace part
      else getModifierParts rest modType defaultMod
  end.

Definition getModifier (tag : StructTag) (tagName : string)
    (modType : modifierType) (defaultMod : string) : string :=
  let tagValue := strings.ToLower mapUnicodeToLower (Get tag tagName) in
  if String.eqb tagValue "" then defaultMod
  else getModifierParts (strings.Split tagValue ",") modType defaultMod.

(** ** Clauses

    [sqlClause] is an interface; [clause] is one of its five
    implementations, and [None] the nil interface. *)

Inductive clause : Type :=
| sqlStaticClause (text : string)
| sqlKeywordClause (key : any) (qm : quoteModifier)
| sqlIdentifierClause (key : string) (value : Identifier) (em : equalsModifier)
| sqlParameterClause (key : string) (value : any)
    (qm : quoteModifier) (em : equalsModifier) (rm : reverseModifier)
| sqlListClause (clauses : list clause) (sep : string) (pm : parenModifier).

Definition sqlClause : Type := option clause.

(** [fmt.Sprintf] with the verb [%v] on a pointer, a slice or a struct
    depends on addresses and on the methods of the type, which [value]
    does not carry; that text is a parameter of the development. *)
Variable Sprint_composite : value -> string.

(** [fmt.Sprintf] with the verb [%v] on a boolean, an integer or a
    string without methods. *)
Definition Sprint_scalar (u : scalar) : string :=
  match u with
  | SBool true => "true"
  | SBool false => "false"
  | SInt n => NilZero.string_of_int (Z.to_int n)
  | SString s => s
  end.

(** [fmt.Sprintf("%v", v)]: a value of a defined type that has a
    [Format], [Error] or [String] method is printed by that method. *)
Definition Sprint (v : any) : string :=
  match v with
  | None => "<nil>"
  | Some (VBool b) => Sprint_scalar (SBool b)
  | Some (VInt n) => Sprint_scalar (SInt n)
  | Some (VString s) => Sprint_scalar (SString s)
  | Some (VDefined _ (Some text) _) => text
  | Some (VDefined _ None u) => Sprint_scalar u
  | Some w => Sprint_composite w
  end.

(** [quoteModifier.Modify]. *)
Definition quoteModifier_Modify (qm : quoteModifier) (v : any) : string :=
  let s := Sprint v in
  if String.eqb qm NoQuotes then s
  else if String.eqb qm DoubleQuotes then
    let escapedString :=
      strings.ReplaceAll s (quoteModifier_String qm)
        (quoteModifier_String qm ++ quoteModifier_String qm) in
    quoteModifier_String qm ++ escapedString ++ quoteModifier_String qm
  else if String.eqb qm SingleQuotes then
    let escapedString :=
      strings.ReplaceAll s (quoteModifier_String qm) backslash_squote in
    quoteModifier_String qm ++ escapedString ++ quoteModifier_String qm
  else s.

(** [parenModifier.Modify]. *)
Definition parenModifier_Modify (pm : parenModifier) (v : any) : string :=
  let s := Sprint v in
  if String.eqb pm NoParentheses then s
  else if String.eqb pm Parentheses then "(" ++ s ++ ")"
  else s.

(** [equalsModifier.Modify]. *)
Definition equalsModifier_Modify (em : equalsModifier) (v : any) : string :=
  if String.eqb em Equals
  then strings.TrimLeft (Sprint v ++ " = ") " "
  else strings.TrimLeft (Sprint v ++ " ") " ".

(** The [String] methods of the five clauses. *)
Fixpoint clause_String (c : clause) : string :=
  match c with
  | sqlStaticClause text => text
  | sqlKeywordClause key qm => quoteModifier_Modify qm key
  | sqlIdentifierClause key value em =>
      let name :=
        match FullyQualifiedName value with
        | Some fqn => fqn
        | None => quoteModifier_Modify DoubleQuotes (str (Name value))
        end in
      if negb (String.eqb key "")
      then equalsModifier_Modify em (str key) ++ name
      else name
  | sqlParameterClause key value qm em rm =>
      if String.eqb rm Reverse
      then reverseModifier_Modify rm [key; quoteModifier_Modify qm value]
      else
        let s := equalsModifier_Modify em (str key) in
        match value with
        | None => s
        | Some _ => s ++ quoteModifier_Modify qm value
        end
  | sqlListClause clauses sep pm =>
      match clauses with
      | [] => ""
      | _ => parenModifier_Modify pm
               (str (strings.Join (map clause_String clauses) sep))
      end
  end.

(** The loop of [sqlBuilder.sql]: the texts of the clauses that are not
    nil and do not render to the empty string. *)
Fixpoint sList (clauses : list sqlClause) : list string :=
  match clauses with
  | [] => []
  | None :: rest => sList rest
  | Some c :: rest =>
      if negb (String.eqb (clause_String c) "")
      then clause_String c :: sList rest
      else sList rest
  end.

(** [sqlBuilder.sql]. *)
Definition sql (clauses : list sqlClause) : string :=
  strings.Trim (strings.Join (sList clauses) " ") " ".

(** [sqlBuilder.renderStaticClause]. *)
Definition renderStaticClause (clauses : list sqlClause) : clause :=
  sqlStaticClause (sql clauses).

(** A clause stored in an [interface{}], which [%v] prints through its
    [String] method; the encoder stores a [sqlStaticClause], a value of a
    defined string type. *)
Definition clauseAsAny (c : clause) : any :=
  Some (VDefined None (Some (clause_String c)) (SString (clause_String c))).

(** ** The encoder

    [parseStruct], [parseFieldStruct], [parseFieldSlice] and [parseField]
    call one another.  Each is first written with the recursive call to
    [parseStruct] as the argument [rec]; the knot is tied below. *)

Section Bodies.

Variable rec : any -> outcome (list clause).

(** The clauses [parseStruct] returns are not nil; they are passed on to
    [sql] and [renderStaticClause] as [sqlClause]s. *)
Definition asSqlClauses (cs : list clause) : list sqlClause := map (@Some clause) cs.

(** The kind tag: [strings.Split(field.Tag.Get("ddl"), ",")[0]]. *)
Definition ddlKind (field : StructField) : string :=
  hd "" (strings.Split (Get (Tag field) "ddl") ",").

(** [sqlBuilder.parseField]. *)
Definition parseField (field : StructField) (value : Value) : outcome sqlClause :=
  if String.eqb (Get (Tag field) "ddl") "" then Ok None
  else
    let value := indirect value in
    let ddlTag := ddlKind field in
    let dbTag := Get (Tag field) "db" in
    if String.eqb ddlTag "static" then Ok (Some (sqlStaticClause dbTag))
    else
      match value with
      | None => Ok None
      | Some value =>
          reflectedValue <- getInterface value ;;
          if Kind_eqb (TypeKind field) Struct then
            structClauses <- rec reflectedValue ;;
            Ok (Some (renderStaticClause (asSqlClauses structClauses)))
          else
            let render (c : clause) : outcome sqlClause :=
              Ok (Some (renderStaticClause [Some c])) in
            if String.eqb ddlTag "keyword" then
              if Kind_eqb (KindOf (Some (val value))) Bool then
                match asBool reflectedValue with
                | Some useKeyword =>
                    if useKeyword
                    then render (sqlKeywordClause (str dbTag)
                           (getModifier (Tag field) "ddl" quoteModifierType NoQuotes))
                    else Ok None
                | None => Panic (FailedAssertion "bool")
                end
              else
                render (sqlKeywordClause reflectedValue
                  (getModifier (Tag field) "ddl" quoteModifierType NoQuotes))
            else if String.eqb ddlTag "identifier" then
              match asIdentifier reflectedValue with
              | IsIdentifier identifier =>
                  render (sqlIdentifierClause dbTag identifier
                    (getModifier (Tag field) "ddl" equalsModifierType NoEquals))
              | NilIdentifier => Panic NilReceiver
              | NotIdentifier => Panic (FailedAssertion "Identifier")
              end
            else if String.eqb ddlTag "parameter" then
              render (sqlParameterClause dbTag reflectedValue
                (getModifier (Tag field) "ddl" quoteModifierType NoQuotes)
                (getModifier (Tag field) "ddl" equalsModifierType Equals)
                (getModifier (Tag field) "ddl" reverseModifierType NoReverse))
            else Ok None
      end.

(** [sqlBuilder.parseFieldStruct]; [value] has kind struct at the only
    call site.  [getInterface] is called before the tag is looked at. *)
Definition parseFieldStruct (field : StructField) (value : Value) : outcome sqlClause :=
  let ddlTag := Get (Tag field) "ddl" in
  reflectedValue <- getInterface value ;;
  let dbTag := Get (Tag field) "db" in
  let ddlType := ddlKind field in
  let nested (clauses : list sqlClause) : outcome sqlClause :=
    fieldStructClauses <- rec reflectedValue ;;
    Ok (Some (renderStaticClause (clauses ++ asSqlClauses fieldStructClauses))) in
  if String.eqb ddlTag "" then nested []
  else if String.eqb ddlType "keyword" then
    nested [Some (sqlKeywordClause (str dbTag)
                    (getModifier (Tag field) "ddl" quoteModifierType NoQuotes))]
  else if String.eqb ddlType "identifier" then
    match asIdentifier reflectedValue with
    | IsIdentifier identifier =>
        if String.eqb (Name identifier) "" then Ok None
        else Ok (Some (sqlIdentifierClause dbTag identifier
                         (getModifier (Tag field) "ddl" equalsModifierType NoEquals)))
    | NilIdentifier => Panic NilReceiver
    | NotIdentifier => nested []
    end
  else if String.eqb ddlType "list" then
    let clauses :=
      if negb (String.eqb dbTag "") then [Some (sqlStaticClause dbTag)] else [] in
    fieldStructClauses <- rec reflectedValue ;;
    Ok (Some (renderStaticClause
                (clauses ++
                 [Some (sqlListClause fieldStructClauses ","
                          (getModifier (Tag field) "ddl" parenModifierType NoParentheses))])))
  else nested [].

(** What the loop of [parseFieldSlice] appends for an element: a clause,
    or an identifier clause that holds a nil pointer, which panics when
    the list is rendered after the loop. *)
Inductive elementClause : Type :=
| Element (c : clause)
| NilIdentifierElement.

(** The loop of [parseFieldSlice] over the elements, which are given as
    [value.Index(i)] returns them. *)
Fixpoint sliceElements (field : StructField) (elems : list Value)
    : outcome (list elementClause) :=
  match elems with
  | [] => Ok []
  | e :: rest =>
      reflectedValue <- getInterface e ;;
      c <- match asIdentifier reflectedValue with
           | IsIdentifier identifier =>
               Ok (Element (sqlIdentifierClause "" identifier
                     (getModifier (Tag field) "ddl" equalsModifierType NoEquals)))
           | NilIdentifier => Ok NilIdentifierElement
           | NotIdentifier =>
               if Kind_eqb (KindOf (Some (val e))) Struct
                  || Kind_eqb (KindOf (Some (val e))) Ptr
               then
                 structClauses <- rec reflectedValue ;;
                 Ok (Element (renderStaticClause (asSqlClauses structClauses)))
               else Ok (Element (sqlStaticClause (Sprint reflectedValue)))
           end ;;
      cs <- sliceElements field rest ;;
      Ok (c :: cs)
  end.

(** The clauses of the list when it is rendered: the [String] method of
    an identifier clause that holds a nil pointer panics. *)
Fixpoint renderedElements (listClauses : list elementClause) : outcome (list clause) :=
  match listClauses with
  | [] => Ok []
  | Element c :: rest => cs <- renderedElements rest ;; Ok (c :: cs)
  | NilIdentifierElement :: _ => Panic NilReceiver
  end.

(** The elements that [value.Len] and [value.Index] give.  Those of a
    slice are addressable.  A string has its bytes, which are not
    addressable and are printed by [fmt] as numbers; other kinds have no
    length, the zero [reflect.Value] included. *)
Definition elementsOf (value : option Value) : outcome (list Value) :=
  let bytesOf (v : Value) (s : string) : list Value :=
    map (fun c => mkValue (flagRO v) false (VInt (Z.of_nat (nat_of_ascii c))))
      (list_ascii_of_string s) in
  match value with
  | None => Panic (NoLength Invalid)
  | Some v =>
      match val v with
      | VSlice elems => Ok (map (Index v) elems)
      | VString s => Ok (bytesOf v s)
      | VDefined _ _ (SString s) => Ok (bytesOf v s)
      | w => Panic (NoLength (KindOf (Some w)))
      end
  end.

(** [sqlBuilder.parseFieldSlice]; [value] has kind slice at the only call
    site. *)
Definition parseFieldSlice (field : StructField) (value : Value) : outcome sqlClause :=
  let value := indirect value in
  elems <- elementsOf value ;;
  listClauses <- sliceElements field elems ;;
  match listClauses with
  | [] => Ok None
  | _ =>
      listClauses <- renderedElements listClauses ;;
      let sClause := renderStaticClause
        [Some (sqlListClause listClauses ","
                 (getModifier (Tag field) "ddl" parenModifierType NoParentheses))] in
      let ddlTag := ddlKind field in
      let dbTag := Get (Tag field) "db" in
      if String.eqb ddlTag "parameter" then
        Ok (Some (sqlParameterClause dbTag (clauseAsAny sClause)
                    (getModifier (Tag field) "ddl" quoteModifierType NoQuotes)
                    (getModifier (Tag field) "ddl" equalsModifierType Equals)
                    (getModifier (Tag field) "ddl" reverseModifierType NoReverse)))
      else if String.eqb ddlTag "keyword" then
        Ok (Some (renderStaticClause
                    [Some (sqlKeywordClause (str dbTag)
                             (getModifier (Tag field) "ddl" quoteModifierType NoQuotes));
                     Some sClause]))
      else Ok (Some sClause)
  end.

(** One round of the loop of [parseStruct] over the fields of the struct
    [v], for the field [field] with the value [x]: [None] when the field is
    skipped ([continue] on a nil pointer), else the clause appended, which
    may be nil. *)
Definition parseStructField (v : Value) (field : StructField) (x : value)
    : outcome (option sqlClause) :=
  match indirect (Field v field x) with
  | None => Ok None
  | Some value =>
      match val value with
      | VSlice _ =>
          sliceClause <- parseFieldSlice field value ;; Ok (Some sliceClause)
      | VStruct _ _ =>
          fieldStructClause <- parseFieldStruct field value ;; Ok (Some fieldStructClause)
      | _ =>
          fieldClause <- parseField field value ;; Ok (Some fieldClause)
      end
  end.

(** The loop of [parseStruct]: the clauses appended, in field order; the
    first error ends it. *)
Fixpoint parseStructFields (v : Value) (fields : list (StructField * value))
    : outcome (list sqlClause) :=
  match fields with
  | [] => Ok []
  | (field, x) :: rest =>
      c <- parseStructField v field x ;;
      cs <- parseStructFields v rest ;;
      Ok (match c with Some c => c :: cs | None => cs end)
  end.

(** The pruning loop of [parseStruct]. *)
Fixpoint prune (clauses : list sqlClause) : list clause :=
  match clauses with
  | [] => []
  | None :: rest => prune rest
  | Some c :: rest =>
      if negb (String.eqb (clause_String c) "") then c :: prune rest else prune rest
  end.

(** The [reflect.Value] that [parseStruct] looks at: that of its argument,
    or of what it points to; [None] is the zero [reflect.Value], of a nil
    interface or behind a nil pointer. *)
Definition structValue (s : any) : option Value :=
  match s with
  | Some x => indirect (ValueOf x)
  | None => None
  end.

(** The body of [sqlBuilder.parseStruct]. *)
Definition parseStructBody (s : any) : outcome (list clause) :=
  let v := structValue s in
  match v with
  | Some v =>
      match val v with
      | VStruct _ fields =>
          clauses <- parseStructFields v fields ;;
          Ok (prune clauses)
      | w => Err (Errorf ("expected struct, got " ++ Kind_String (KindOf (Some w))))
      end
  | None => Err (Errorf ("expected struct, got " ++ Kind_String Invalid))
  end.

End Bodies.

(** Nesting depth of a value: the number of pointers, interfaces, slices
    and structs on its longest path. *)
Fixpoint depth (v : value) : nat :=
  match v with
  | VBool _ | VInt _ | VString _ | VDefined _ _ _ => 0
  | VPtr None | VIface None | VNilIdentifier => 1
  | VPtr (Some w) | VIface (Some w) => S (depth w)
  | VSlice elems => S (list_max (map depth elems))
  | VStruct _ fields => S (list_max (map (fun p => depth (snd p)) fields))
  end.

Definition depthAny (s : any) : nat :=
  match s with
  | None => 0
  | Some v => depth v
  end.

(** [parseStruct] with a bound on the nesting of its recursive calls. *)
Fixpoint parseStructFuel (fuel : nat) (s : any) : outcome (list clause) :=
  match fuel with
  | O => Panic RecursionBound
  | S fuel' => parseStructBody (parseStructFuel fuel') s
  end.

(** [sqlBuilder.parseStruct]: the bound is taken above the depth of the
    value, so that it is never reached ([parseStruct_eq] below). *)
Definition parseStruct (s : any) : outcome (list clause) :=
  parseStructFuel (S (depthAny s)) s.

(** [structToSQL]. *)
Definition structToSQL (v : any) : outcome string :=
  match parseStruct v with
  | Ok clauses => Ok (sql (asSqlClauses clauses))
  | Err err => Err err
  | Panic p => Panic p
  end.

(** ** Identifier types *)

(** Modelled from the spec: the identifier types [AccountObjectIdentifier],
    [SchemaIdentifier] and [SchemaObjectIdentifier] are declared in a file
    that is not among the sources.  Following the spec (an identifier is a
    name, and an object identifier can moreover render a fully-qualified,
    dot-separated path across its scopes), an object identifier is a name
    with its enclosing scopes, outermost first.  [grants.go] stores an
    [AccountObjectIdentifier] in a field of type [ObjectIdentifier], so
    the types implement [ObjectIdentifier]. *)
Record ObjectIdentifierValue : Type := mkObjectIdentifier {
  scopes : list string;
  name : string
}.

(** Modelled from the spec: an account-level object has no enclosing
    scope; the declaration is not among the sources. *)
Definition AccountObjectIdentifier : Type := ObjectIdentifierValue.

(** Modelled from the spec: a schema is named within its database; the
    declaration is not among the sources. *)
Definition SchemaIdentifier : Type := ObjectIdentifierValue.

(** Modelled from the spec: a schema-level object is named within its
    database and schema; the declaration is not among the sources. *)
Definition SchemaObjectIdentifier : Type := ObjectIdentifierValue.

(** Modelled from the spec: the [FullyQualifiedName] method of the
    identifier types, which is declared with them: the dot-separated path
    of the double-quoted parts, as in the statement of the end-to-end
    scenario of the spec. *)
Definition fullyQualifiedName (i : ObjectIdentifierValue) : string :=
  strings.Join (map (fun part => (dquote ++ part ++ dquote)%string) (scopes i ++ [name i])) ".".

(** Modelled from the spec: the methods of an identifier value, as the
    encoder calls them; [Name] returns the name. *)
Definition identifierMethods (i : ObjectIdentifierValue) : Identifier :=
  {| Name := name i; FullyQualifiedName := Some (fullyQualifiedName i) |}.

(** Modelled from the spec: an identifier value seen through [reflect],
    a struct of unexported, untagged string fields that has the
    identifier methods. *)
Definition reflectIdentifier (i : ObjectIdentifierValue) : value :=
  VStruct (Some (identifierMethods i))
    (map (fun part => (mkField "" false String_ [], VString part)) (scopes i ++ [name i])).

(** Modelled from the spec: [validObjectidentifier] is declared in a file
    that is not among the sources; an identifier is valid iff its name is
    not empty and has at most 255 characters. *)
Definition validObjectidentifier (i : Identifier) : bool :=
  (1 <=? String.length (Name i))%nat && (String.length (Name i) <=? 255)%nat.

(** ** Validation helpers *)

(** Modelled from the spec: [valueSet] is declared in a file that is not
    among the sources (only its tests are).  A value is set when it is not
    nil; an identifier is set when it is well formed. *)
Definition valueSet (v : any) : bool :=
  match asIdentifier v with
  | IsIdentifier i => validObjectidentifier i
  | _ =>
      match v with
      | None | Some (VPtr None) | Some VNilIdentifier | Some (VIface None) => false
      | Some _ => true
      end
  end.

(** Modelled from the spec: [everyValueNil] is declared with [valueSet];
    no value is set. *)
Definition everyValueNil (values : list any) : bool :=
  forallb (fun v => negb (valueSet v)) values.

(** Modelled from the spec: [exactlyOneValueSet] is declared with
    [valueSet]; the number of values that are set is one. *)
Definition exactlyOneValueSet (values : list any) : bool :=
  Nat.eqb (List.length (filter valueSet values)) 1.

(** ** [grants.go] *)

(** [Privilege] and [ObjectType] are declared in files that are not among
    the sources; [toGrant] converts strings to them, they are string
    types. *)
Definition Privilege : Type := string.
Definition ObjectType : Type := string.

(** Modelled from the spec: a privilege seen through [reflect], a value of
    a defined string type that [fmt] prints as its text (the privilege
    text of the spec). *)
Definition reflectPrivilege (p : Privilege) : value :=
  VDefined None None (SString p).

(** [time.Time] is not inspected by the sources. *)
Variable Time : Type.

(** [ObjectTypeShare] and [NewAccountObjectIdentifier] are declared in
    files that are not among the sources; they are parameters. *)
Variable ObjectTypeShare : ObjectType.
Variable NewAccountObjectIdentifier : string -> AccountObjectIdentifier.

Record Grant : Type := mkGrant {
  Grant_CreatedOn : Time;
  Grant_Privilege : Privilege;
  Grant_GrantedOn : ObjectType;
  Grant_Name : ObjectIdentifierValue;
  Grant_GrantedTo : ObjectType;
  Grant_GranteeName : AccountObjectIdentifier;
  Grant_GrantOption : bool;
  Grant_GrantedBy : AccountObjectIdentifier
}.

Record grantRow : Type := mkGrantRow {
  row_CreatedOn : Time;
  row_Privilege : string;
  row_GrantedOn : string;
  row_Name : string;
  row_GrantedTo : string;
  row_GranteeName : string;
  row_GrantOption : bool;
  row_GrantedBy : string
}.

(** [grantRow.toGrant].  [parts[1:]] cannot fail: [strings.Split] with a
    separator that is not empty returns at least one part. *)
Definition toGrant (row : grantRow) : outcome Grant :=
  let grantedTo : ObjectType := row_GrantedTo row in
  let granteeName := NewAccountObjectIdentifier (row_GranteeName row) in
  let granteeName :=
    if String.eqb grantedTo ObjectTypeShare then
      let parts := strings.Split (row_GranteeName row) "." in
      let name := strings.Join (skipn 1 parts) "." in
      NewAccountObjectIdentifier name
    else granteeName in
  Ok {| Grant_CreatedOn := row_CreatedOn row;
        Grant_Privilege := row_Privilege row;
        Grant_GrantedOn := row_GrantedOn row;
        Grant_GrantedTo := grantedTo;
        Grant_Name := NewAccountObjectIdentifier (strings.Trim (row_Name row) dquote);
        Grant_GranteeName := granteeName;
        Grant_GrantOption := row_GrantOption row;
        Grant_GrantedBy := NewAccountObjectIdentifier (row_GrantedBy row) |}.

(** Whether a field name of the sources is exported: the names are
    ASCII, and an exported one starts with a letter from A to Z. *)
Definition exportedName (fieldName : string) : bool :=
  match fieldName with
  | EmptyString => false
  | String c _ => (65 <=? nat_of_ascii c)%nat && (nat_of_ascii c <=? 90)%nat
  end.

(** A field of a struct type of the sources, with its tag as they write
    it. *)
Definition fld (fieldName : string) (k : Kind) (ddl db : option string) : StructField :=
  mkField fieldName (exportedName fieldName) k
    (match ddl with Some t => [("ddl", t)] | None => [] end ++
     match db with Some t => [("db", t)] | None => [] end).

(** A pointer field: nil, or the address of the reflected value. *)
Definition ptrTo {A : Type} (reflectA : A -> value) (p : option A) : value :=
  VPtr (option_map reflectA p).

Record OnTable : Type := mkOnTable {
  OnTable_Name : SchemaObjectIdentifier;
  OnTable_AllInSchema : SchemaIdentifier
}.

Definition reflectOnTable (v : OnTable) : value :=
  VStruct None
    [ (fld "Name" Struct (Some "identifier") (Some "TABLE"),
       reflectIdentifier (OnTable_Name v));
      (fld "AllInSchema" Struct (Some "identifier") (Some "ALL TABLES IN SCHEMA"),
       reflectIdentifier (OnTable_AllInSchema v)) ].

Record GrantPrivilegeToShareOn : Type := mkGrantPrivilegeToShareOn {
  On_Database : AccountObjectIdentifier;
  On_Schema : SchemaIdentifier;
  On_Function : SchemaObjectIdentifier;
  On_Table : option OnTable;
  On_View : SchemaObjectIdentifier
}.

Definition reflectGrantPrivilegeToShareOn (v : GrantPrivilegeToShareOn) : value :=
  VStruct None
    [ (fld "Database" Struct (Some "identifier") (Some "DATABASE"),
       reflectIdentifier (On_Database v));
      (fld "Schema" Struct (Some "identifier") (Some "SCHEMA"),
       reflectIdentifier (On_Schema v));
      (fld "Function" Struct (Some "identifier") (Some "FUNCTION"),
       reflectIdentifier (On_Function v));
      (fld "Table" Ptr (Some "-") None, ptrTo reflectOnTable (On_Table v));
      (fld "View" Struct (Some "identifier") (Some "VIEW"),
       reflectIdentifier (On_View v)) ].

Record grantPrivilegeToShareOptions : Type := mkGrantPrivilegeToShareOptions {
  opts_grant : bool;
  opts_objectPrivilege : Privilege;
  opts_On : option GrantPrivilegeToShareOn;
  opts_to : AccountObjectIdentifier
}.

(** The options value as [structToSQL] receives it: a pointer to the
    struct. *)
Definition reflectGrantPrivilegeToShareOptions (opts : grantPrivilegeToShareOptions) : any :=
  Some (VPtr (Some (VStruct None
    [ (fld "grant" Bool (Some "static") (Some "GRANT"), VBool (opts_grant opts));
      (fld "objectPrivilege" String_ (Some "keyword") None,
       reflectPrivilege (opts_objectPrivilege opts));
      (fld "On" Ptr (Some "keyword") (Some "ON"),
       ptrTo reflectGrantPrivilegeToShareOn (opts_On opts));
      (fld "to" Struct (Some "identifier") (Some "TO SHARE"),
       reflectIdentifier (opts_to opts)) ]))).

(** [ShowGrantsOn]; the declaration of [Object] is not among the sources,
    the field holds the struct pointed to as [reflect] shows it. *)
Record ShowGrantsOn : Type := mkShowGrantsOn {
  ShowOn_Account : option bool;
  ShowOn_Object : option value
}.

Definition reflectShowGrantsOn (v : ShowGrantsOn) : value :=
  VStruct None
    [ (fld "Account" Ptr (Some "keyword") (Some "ACCOUNT"),
       ptrTo VBool (ShowOn_Account v));
      (fld "Object" Ptr None None, VPtr (ShowOn_Object v)) ].

Record ShowGrantsTo : Type := mkShowGrantsTo {
  ShowTo_Role : AccountObjectIdentifier;
  ShowTo_User : AccountObjectIdentifier;
  ShowTo_Share : AccountObjectIdentifier
}.

Definition reflectShowGrantsTo (v : ShowGrantsTo) : value :=
  VStruct None
    [ (fld "Role" Struct (Some "identifier") (Some "ROLE"), reflectIdentifier (ShowTo_Role v));
      (fld "User" Struct (Some "identifier") (Some "USER"), reflectIdentifier (ShowTo_User v));
      (fld "Share" Struct (Some "identifier") (Some "SHARE"), reflectIdentifier (ShowTo_Share v)) ].

Record ShowGrantsOf : Type := mkShowGrantsOf {
  ShowOf_Role : AccountObjectIdentifier;
  ShowOf_Share : AccountObjectIdentifier
}.

Definition reflectShowGrantsOf (v : ShowGrantsOf) : value :=
  VStruct None
    [ (fld "Role" Struct (Some "identifier") (Some "ROLE"), reflectIdentifier (ShowOf_Role v));
      (fld "Share" Struct (Some "identifier") (Some "SHARE"), reflectIdentifier (ShowOf_Share v)) ].

Record ShowGrantsOptions : Type := mkShowGrantsOptions {
  Show_show : bool;
  Show_grants : bool;
  Show_On : option ShowGrantsOn;
  Show_To : option ShowGrantsTo;
  Show_Of : option ShowGrantsOf
}.

Definition reflectShowGrantsOptions (opts : ShowGrantsOptions) : any :=
  Some (VPtr (Some (VStruct None
    [ (fld "show" Bool (Some "static") (Some "SHOW"), VBool (Show_show opts));
      (fld "grants" Bool (Some "static") (Some "GRANTS"), VBool (Show_grants opts));
      (fld "On" Ptr (Some "keyword") (Some "ON"), ptrTo reflectShowGrantsOn (Show_On opts));
      (fld "To" Ptr (Some "keyword") (Some "TO"), ptrTo reflectShowGrantsTo (Show_To opts));
      (fld "Of" Ptr (Some "keyword") (Some "OF"), ptrTo reflectShowGrantsOf (Show_Of opts)) ]))).

(** The three selectors as [validate] passes them to the helpers. *)
Definition selectors (opts : ShowGrantsOptions) : list any :=
  [ Some (ptrTo reflectShowGrantsOn (Show_On opts));
    Some (ptrTo reflectShowGrantsTo (Show_To opts));
    Some (ptrTo reflectShowGrantsOf (Show_Of opts)) ].

(** [ShowGrantsOptions.validate]: [None] is the nil error. *)
Definition ShowGrantsOptions_validate (opts : ShowGrantsOptions) : option error :=
  if everyValueNil (selectors opts)
  then Some (Errorf "at least one of on, to, or of is required")
  else if negb (exactlyOneValueSet (selectors opts))
  then Some (Errorf "only one of on, to, or of can be set")
  else None.

(** What a call of [Show] does besides returning: the calls of
    [structToSQL] and of the client, in order. *)
Inductive event : Type :=
| Encoded (result : outcome string)
| Queried (sql : string).

(** [client.query], the transport, decodes the rows of a statement. *)
Variable query : string -> outcome (list grantRow).

(** The loop of [Show] over the rows. *)
Fixpoint toGrants (rows : list grantRow) : outcome (list Grant) :=
  match rows with
  | [] => Ok []
  | row :: rest =>
      grant <- toGrant row ;;
      grants <- toGrants rest ;;
      Ok (grant :: grants)
  end.

(** [grants.Show]: the events of the call and its result. *)
Definition Show (opts : option ShowGrantsOptions) : list event * outcome (list Grant) :=
  let opts :=
    match opts with
    | None => mkShowGrantsOptions false false None None None
    | Some opts => opts
    end in
  match ShowGrantsOptions_validate opts with
  | Some err => ([], Err err)
  | None =>
      let encoded := structToSQL (reflectShowGrantsOptions opts) in
      match encoded with
      | Ok sql =>
          match query sql with
          | Ok rows => ([Encoded encoded; Queried sql], toGrants rows)
          | Err err => ([Encoded encoded; Queried sql], Err err)
          | Panic p => ([Encoded encoded; Queried sql], Panic p)
          end
      | Err err => ([Encoded encoded], Err err)
      | Panic p => ([Encoded encoded], Panic p)
      end
  end.

(** ** The share operations of [grants.go] *)

(** [Grant.ID]. *)
Definition Grant_ID (v : Grant) : ObjectIdentifierValue := Grant_Name v.

(** An identifier passed to a validation helper. *)
Definition identAny (i : ObjectIdentifierValue) : any := Some (reflectIdentifier i).

(** [OnTable.validate]: [None] is the nil error. *)
Definition OnTable_validate (v : OnTable) : option error :=
  if negb (exactlyOneValueSet [identAny (OnTable_Name v); identAny (OnTable_AllInSchema v)])
  then Some (Errorf "only one of name or allInSchema can be set")
  else None.

(** The five selectors of [GrantPrivilegeToShareOn], as both [validate]
    methods pass them to [exactlyOneValueSet]. *)
Definition grantOnValues (v : GrantPrivilegeToShareOn) : list any :=
  [ identAny (On_Database v); identAny (On_Schema v); identAny (On_Function v);
    Some (ptrTo reflectOnTable (On_Table v)); identAny (On_View v) ].

(** [GrantPrivilegeToShareOn.validate].  When [valueSet] holds of the
    pointer, the pointer is not nil. *)
Definition GrantPrivilegeToShareOn_validate (v : GrantPrivilegeToShareOn) : option error :=
  if negb (exactlyOneValueSet (grantOnValues v))
  then Some (Errorf "only one of database, schema, function, table, or view can be set")
  else if valueSet (Some (ptrTo reflectOnTable (On_Table v)))
  then match On_Table v with
       | Some table => OnTable_validate table
       | None => None
       end
  else None.

(** [grantPrivilegeToShareOptions.validate].  The fields of [On] are read
    after the check that the pointer is set. *)
Definition grantPrivilegeToShareOptions_validate
    (opts : grantPrivilegeToShareOptions) : option error :=
  if negb (validObjectidentifier (identifierMethods (opts_to opts)))
  then Some ErrInvalidObjectIdentifier
  else if negb (valueSet (Some (ptrTo reflectGrantPrivilegeToShareOn (opts_On opts))))
          || String.eqb (opts_objectPrivilege opts) ""
  then Some (Errorf "on and objectPrivilege are required")
  else match opts_On opts with
       | Some on =>
           if negb (exactlyOneValueSet (grantOnValues on))
           then Some (Errorf
                  "only one of database, schema, function, table, or view can be set")
           else None
       | None => None
       end.

(** What a call of a share operation does besides returning: the call of
    [structToSQL] and the statement handed to [client.exec]. *)
Inductive shareCall : Type :=
| Built (result : outcome string)
| Executed (sql : string).

(** [client.exec], the transport: the error of running a statement,
    [None] when it is nil. *)
Variable exec : string -> option error.

(** The common end of the two share operations: encode, then execute. *)
Definition encodeAndExec (opts : any) : list shareCall * outcome unit :=
  let built := structToSQL opts in
  match built with
  | Ok sql =>
      ([Built built; Executed sql],
       match exec sql with
       | None => Ok tt
       | Some err => Err err
       end)
  | Err err => ([Built built], Err err)
  | Panic p => ([Built built], Panic p)
  end.

(** [grants.GrantPrivilegeToShare]: the calls made and the error returned,
    [Ok tt] for nil. *)
Definition GrantPrivilegeToShare (objectPrivilege : Privilege)
    (on : option GrantPrivilegeToShareOn) (to : AccountObjectIdentifier)
    : list shareCall * outcome unit :=
  let opts := mkGrantPrivilegeToShareOptions false objectPrivilege on to in
  match grantPrivilegeToShareOptions_validate opts with
  | Some err => ([], Err err)
  | None => encodeAndExec (reflectGrantPrivilegeToShareOptions opts)
  end.

Record OnView : Type := mkOnView {
  OnView_Name : SchemaObjectIdentifier;
  OnView_AllInSchema : SchemaIdentifier
}.

Definition reflectOnView (v : OnView) : value :=
  VStruct None
    [ (fld "Name" Struct (Some "identifier") (Some "VIEW"),
       reflectIdentifier (OnView_Name v));
      (fld "AllInSchema" Struct (Some "identifier") (Some "ALL VIEWS IN SCHEMA"),
       reflectIdentifier (OnView_AllInSchema v)) ].

(** [OnView.validate]. *)
Definition OnView_validate (v : OnView) : option error :=
  if negb (exactlyOneValueSet [identAny (OnView_Name v); identAny (OnView_AllInSchema v)])
  then Some (Errorf "only one of name or allInSchema can be set")
  else None.

Record RevokePrivilegeFromShareOn : Type := mkRevokePrivilegeFromShareOn {
  RevokeOn_Database : AccountObjectIdentifier;
  RevokeOn_Schema : SchemaIdentifier;
  RevokeOn_Table : option OnTable;
  RevokeOn_View : option OnView
}.

Definition reflectRevokePrivilegeFromShareOn (v : RevokePrivilegeFromShareOn) : value :=
  VStruct None
    [ (fld "Database" Struct (Some "identifier") (Some "DATABASE"),
       reflectIdentifier (RevokeOn_Database v));
      (fld "Schema" Struct (Some "identifier") (Some "SCHEMA"),
       reflectIdentifier (RevokeOn_Schema v));
      (fld "Table" Ptr (Some "-") None, ptrTo reflectOnTable (RevokeOn_Table v));
      (fld "View" Ptr (Some "-") None, ptrTo reflectOnView (RevokeOn_View v)) ].

(** The four selectors of [RevokePrivilegeFromShareOn]. *)
Definition revokeOnValues (v : RevokePrivilegeFromShareOn) : list any :=
  [ identAny (RevokeOn_Database v); identAny (RevokeOn_Schema v);
    Some (ptrTo reflectOnTable (RevokeOn_Table v));
    Some (ptrTo reflectOnView (RevokeOn_View v)) ].

(** [RevokePrivilegeFromShareOn.validate]. *)
Definition RevokePrivilegeFromShareOn_validate
    (v : RevokePrivilegeFromShareOn) : option error :=
  if negb (exactlyOneValueSet (revokeOnValues v))
  then Some (Errorf "only one of database, schema, table, or view can be set")
  else if valueSet (Some (ptrTo reflectOnTable (RevokeOn_Table v)))
  then match RevokeOn_Table v with
       | Some table => OnTable_validate table
       | None => None
       end
  else if valueSet (Some (ptrTo reflectOnView (RevokeOn_View v)))
  then match RevokeOn_View v with
       | Some view => OnView_validate view
       | None => None
       end
  else None.

Record revokePrivilegeFromShareOptions : Type := mkRevokePrivilegeFromShareOptions {
  ropts_revoke : bool;
  ropts_objectPrivilege : Privilege;
  ropts_On : option RevokePrivilegeFromShareOn;
  ropts_from : AccountObjectIdentifier
}.

Definition reflectRevokePrivilegeFromShareOptions
    (opts : revokePrivilegeFromShareOptions) : any :=
  Some (VPtr (Some (VStruct None
    [ (fld "revoke" Bool (Some "static") (Some "REVOKE"), VBool (ropts_revoke opts));
      (fld "objectPrivilege" String_ (Some "keyword") None,
       reflectPrivilege (ropts_objectPrivilege opts));
      (fld "On" Ptr (Some "keyword") (Some "ON"),
       ptrTo reflectRevokePrivilegeFromShareOn (ropts_On opts));
      (fld "from" Struct (Some "identifier") (Some "FROM SHARE"),
       reflectIdentifier (ropts_from opts)) ]))).

(** [revokePrivilegeFromShareOptions.validate]. *)
Definition revokePrivilegeFromShareOptions_validate
    (opts : revokePrivilegeFromShareOptions) : option error :=
  if negb (validObjectidentifier (identifierMethods (ropts_from opts)))
  then Some ErrInvalidObjectIdentifier
  else if negb (valueSet (Some (ptrTo reflectRevokePrivilegeFromShareOn (ropts_On opts))))
          || String.eqb (ropts_objectPrivilege opts) ""
  then Some (Errorf "on and objectPrivilege are required")
  else match ropts_On opts with
       | Some on =>
           if negb (exactlyOneValueSet (revokeOnValues on))
           then Some (Errorf
                  "only one of database, schema, function, table, or view can be set")
           else RevokePrivilegeFromShareOn_validate on
       | None => None
       end.

(** [grants.RevokePrivilegeFromShare]. *)
Definition RevokePrivilegeFromShare (objectPrivilege : Privilege)
    (on : option RevokePrivilegeFromShareOn) (id : AccountObjectIdentifier)
    : list shareCall * outcome unit :=
  let opts := mkRevokePrivilegeFromShareOptions false objectPrivilege on id in
  match revokePrivilegeFromShareOptions_validate opts with
  | Some err => ([], Err err)
  | None => encodeAndExec (reflectRevokePrivilegeFromShareOptions opts)
  end.

(** ** Definitions that follow the wording of the specification

    They are compared below with the definitions taken from the
    sources. *)

(** Every occurrence of the character [c] in [v] replaced by [by]. *)
Fixpoint replaceEach (c : ascii) (by_ : string) (v : string) : string :=
  match v with
  | EmptyString => ""
  | String a v' =>
      if Ascii.eqb a c then by_ ++ replaceEach c by_ v'
      else String a (replaceEach c by_ v')
  end.

(** The dot-separated segments of a name. *)
Fixpoint dotSegments (s : string) : list string :=
  match s with
  | EmptyString => [""]
  | String c s' =>
      if Ascii.eqb c "."%char then "" :: dotSegments s'
      else match dotSegments s' with
           | h :: t => String c h :: t
           | [] => [String c ""]
           end
  end.

(** What follows the first dot of a name; nothing when it has no dot. *)
Fixpoint afterFirstDot (s : string) : string :=
  match s with
  | EmptyString => ""
  | String c s' => if Ascii.eqb c "."%char then s' else afterFirstDot s'
  end.

(** The rendered texts of the clauses that are not nil, the empty ones
    left out. *)
Definition nonEmptyTexts (clauses : list sqlClause) : list string :=
  filter (fun t => negb (String.eqb t ""))
    (flat_map (fun c => match c with
                        | Some c => [clause_String c]
                        | None => []
                        end) clauses).

(** A value that [parseStruct] hands to [parseField]: neither a slice nor
    a struct. *)
Definition scalarShaped (w : value) : bool :=
  match w with
  | VSlice _ | VStruct _ _ => false
  | _ => true
  end.

(** A text that neither starts nor ends with a space. *)
Definition noEdgeSpaces (t : string) : Prop :=
  strings.HasPrefix t " " = false /\ strings.HasSuffix t " " = false.

(** The kind [parseStruct] looks at: that of the value, or of what a
    pointer points to. *)
Definition structKind (s : any) : Kind :=
  KindOf (match s with Some x => deref x | None => None end).

(** A slice element that is a boolean, an integer or a string. *)
Definition plainElement (e : value) : bool :=
  match e with
  | VBool _ | VInt _ | VString _ => true
  | _ => false
  end.

(** A struct value with the given fields, as [parseStruct] receives it. *)
Definition structOf (fields : list (StructField * value)) : any :=
  Some (VStruct None fields).

(** A text that is not empty and neither starts nor ends with a space. *)
Definition tidy (t : string) : Prop := t <> "" /\ noEdgeSpaces t.

(** The text of an identifier under its keyword: nothing when the name is
    empty, else the keyword, a space and the fully-qualified name. *)
Definition idText (keyword : string) (i : ObjectIdentifierValue) : list string :=
  if String.eqb (name i) "" then []
  else [(keyword ++ " " ++ fullyQualifiedName i)%string].

(** A group of texts under a leading keyword, joined by spaces. *)
Definition group (keyword : string) (texts : list string) : string :=
  strings.Join (keyword :: texts) " ".

(** A group that is left out when it has no text. *)
Definition optionalGroup (texts : list string) : list string :=
  match texts with
  | [] => []
  | _ => [strings.Join texts " "]
  end.

Definition onTableTexts (v : OnTable) : list string :=
  idText "TABLE" (OnTable_Name v) ++ idText "ALL TABLES IN SCHEMA" (OnTable_AllInSchema v).

Definition onViewTexts (v : OnView) : list string :=
  idText "VIEW" (OnView_Name v) ++ idText "ALL VIEWS IN SCHEMA" (OnView_AllInSchema v).

Definition grantOnTexts (v : GrantPrivilegeToShareOn) : list string :=
  idText "DATABASE" (On_Database v) ++ idText "SCHEMA" (On_Schema v)
  ++ idText "FUNCTION" (On_Function v)
  ++ match On_Table v with
     | Some table => optionalGroup (onTableTexts table)
     | None => []
     end
  ++ idText "VIEW" (On_View v).

Definition revokeOnTexts (v : RevokePrivilegeFromShareOn) : list string :=
  idText "DATABASE" (RevokeOn_Database v) ++ idText "SCHEMA" (RevokeOn_Schema v)
  ++ match RevokeOn_Table v with
     | Some table => optionalGroup (onTableTexts table)
     | None => []
     end
  ++ match RevokeOn_View v with
     | Some view => optionalGroup (onViewTexts view)
     | None => []
     end.

Definition showToTexts (v : ShowGrantsTo) : list string :=
  idText "ROLE" (ShowTo_Role v) ++ idText "USER" (ShowTo_User v)
  ++ idText "SHARE" (ShowTo_Share v).

Definition showOfTexts (v : ShowGrantsOf) : list string :=
  idText "ROLE" (ShowOf_Role v) ++ idText "SHARE" (ShowOf_Share v).

(** The part of a statement that a pointer field contributes. *)
Definition pointerPart {A : Type} (keyword : string) (texts : A -> list string)
    (p : option A) : list string :=
  match p with
  | Some v => [group keyword (texts v)]
  | None => []
  end.

(** The clause of an identifier field: none when the name is empty. *)
Definition idClauses (keyword : string) (i : ObjectIdentifierValue) : list clause :=
  if String.eqb (name i) "" then []
  else [sqlIdentifierClause keyword (identifierMethods i) NoEquals].

(** The text of a keyword given by its value, with the spaces at its ends
    trimmed; nothing when nothing is left. *)
Definition keywordText (p : string) : list string :=
  if String.eqb (strings.Trim p " ") "" then [] else [strings.Trim p " "].

(** The text of the ACCOUNT keyword of [ShowGrantsOn]: present when the
    pointer is not nil and points to true. *)
Definition showOnTexts (v : ShowGrantsOn) : list string :=
  match ShowOn_Account v with
  | Some true => ["ACCOUNT"]
  | _ => []
  end.

(** The statements of the three operations, as texts joined by spaces. *)
Definition grantText (opts : grantPrivilegeToShareOptions) : string :=
  strings.Join
    ("GRANT" :: keywordText (opts_objectPrivilege opts)
     ++ pointerPart "ON" grantOnTexts (opts_On opts)
     ++ idText "TO SHARE" (opts_to opts)) " ".

Definition revokeText (opts : revokePrivilegeFromShareOptions) : string :=
  strings.Join
    ("REVOKE" :: keywordText (ropts_objectPrivilege opts)
     ++ pointerPart "ON" revokeOnTexts (ropts_On opts)
     ++ idText "FROM SHARE" (ropts_from opts)) " ".

Definition showText (opts : ShowGrantsOptions) : string :=
  strings.Join
    ("SHOW" :: "GRANTS"
     :: pointerPart "ON" showOnTexts (Show_On opts)
     ++ pointerPart "TO" showToTexts (Show_To opts)
     ++ pointerPart "OF" showOfTexts (Show_Of opts)) " ".

(** An outcome other than the panic of the recursion bound. *)
Definition boundFree {A : Type} (o : outcome A) : Prop :=
  o <> Panic RecursionBound.

(** Instances of the parameters, for closed examples. *)
Definition noText : value -> string := fun _ => "".
Definition noLower : string -> string := fun s => s.

(** Inputs of the closed examples. *)
Definition keyOnlyParameter : clause :=
  sqlParameterClause "k" None NoQuotes Equals NoReverse.

Definition grantField : StructField := fld "grant" Bool (Some "static") (Some "GRANT").

Definition optionalStaticStruct : any :=
  Some (VStruct None [(fld "grant" Ptr (Some "static") (Some "GRANT"), VPtr None)]).

Definition privilegeField : StructField := fld "objectPrivilege" String_ (Some "keyword") None.


(** A struct with the given fields passed by pointer. *)
Definition pointerTo (fields : list (StructField * value)) : any :=
  Some (VPtr (Some (VStruct None fields))).





Definition toField : StructField := fld "to" Struct (Some "identifier") (Some "TO SHARE").



Definition valueField : StructField := fld "Value" Interface (Some "parameter") (Some "K").


Definition emptyName : Identifier := {| Name := ""; FullyQualifiedName := Some "" |}.

Definition rowOf (createdOn : Time) (grantedTo granteeName : string) : grantRow :=
  mkGrantRow createdOn "USAGE" "DATABASE" "DB1" grantedTo granteeName false "ACCOUNTADMIN".

Definition noRows : string -> outcome (list grantRow) := fun _ => Ok [].

Definition twoSelectors : ShowGrantsOptions :=
  mkShowGrantsOptions false false
    (Some (mkShowGrantsOn (Some true) None))
    (Some (mkShowGrantsTo (mkObjectIdentifier [] "R") (mkObjectIdentifier [] "")
             (mkObjectIdentifier [] "")))
    None.

(** Inputs of the closed examples of the further properties. *)
Definition noExec : string -> option error := fun _ => None.

Definition share1 : ObjectIdentifierValue := mkObjectIdentifier [] "S1".
Definition unnamed : ObjectIdentifierValue := mkObjectIdentifier [] "".
Definition table1 : ObjectIdentifierValue := mkObjectIdentifier ["DB1"; "PUBLIC"] "T1".
Definition schema1 : ObjectIdentifierValue := mkObjectIdentifier ["DB1"] "PUBLIC".


Definition columnsField : StructField := fld "columns" Slice (Some "list,parentheses") None.

Definition toRole : ShowGrantsOptions :=
  mkShowGrantsOptions false false None
    (Some (mkShowGrantsTo (mkObjectIdentifier [] "R1") unnamed unnamed)) None.

Definition onDatabase : GrantPrivilegeToShareOn :=
  mkGrantPrivilegeToShareOn (mkObjectIdentifier [] "DB1") unnamed unnamed None unnamed.

(** * Properties *)

(** ** The recursion bound of [parseStruct] is never reached *)

Lemma depth_getInterface (v : Value) (a : any) :
  getInterface v = Ok a -> depthAny a <= depth (val v).
Proof.
  unfold getInterface.
  assert (P : forall x : value, depthAny (Value_Interface x) <= depth x).
  { intros x. destruct x as [b|n|t|m t u|p| |d|elems|m fields]; simpl; try lia.
    destruct d as [w|]; simpl; lia. }
  destruct (flagRO v), (flagAddr v); cbn [negb]; intros E; inversion E; apply P.
Qed.

Lemma depth_deref (x w : value) : deref x = Some w -> depth w <= depth x.
Proof.
  destruct x as [b|n|t|m t u|p| |d|elems|m fields]; cbn [deref]; intros E;
    inversion E; subst; try lia.
  simpl. lia.
Qed.

Lemma val_indirect (v w : Value) : indirect v = Some w -> deref (val v) = Some (val w).
Proof.
  unfold indirect. destruct (deref (val v)) as [x|]; intros E; inversion E. reflexivity.
Qed.

Lemma depth_indirect (v w : Value) :
  indirect v = Some w -> depth (val w) <= depth (val v).
Proof. intros E. apply depth_deref, val_indirect, E. Qed.

Lemma list_max_map_ge {A : Type} (f : A -> nat) (l : list A) (x : A) :
  In x l -> f x <= list_max (map f l).
Proof.
  induction l as [|y l IH]; simpl; intros H; [contradiction|].
  destruct H as [->|H]; [lia|]. specialize (IH H). lia.
Qed.

Lemma list_max_map_zero {A : Type} (f : A -> nat) (l : list A) :
  (forall x, f x = 0) -> list_max (map f l) = 0.
Proof. intros H. induction l as [|y l IH]; simpl; [reflexivity|]. rewrite H, IH. reflexivity. Qed.

Lemma depth_elementsOf (w : Value) (elems : list Value) :
  elementsOf (Some w) = Ok elems ->
  list_max (map (fun e => depth (val e)) elems) < S (depth (val w)).
Proof.
  unfold elementsOf.
  destruct (val w) as [b|n|t|m t [b|n|u]|p| |d|es|m fields];
    intros E; inversion E; subst; clear E.
  - rewrite map_map. rewrite list_max_map_zero; [lia|reflexivity].
  - rewrite map_map. rewrite list_max_map_zero; [lia|reflexivity].
  - rewrite map_map.
    change (map (fun x => depth (val (Index w x))) es) with (map depth es).
    cbn [depth]. lia.
Qed.

Lemma depth_structValue (s : any) (v : Value) :
  structValue s = Some v -> depth (val v) <= depthAny s.
Proof.
  destruct s as [x|]; [|discriminate]. unfold structValue. intros E.
  apply depth_indirect in E. exact E.
Qed.

Section Extensionality.

Variables rec1 rec2 : any -> outcome (list clause).

Lemma parseField_ext (field : StructField) (v : Value) :
  (forall a, depthAny a <= depth (val v) -> rec1 a = rec2 a) ->
  parseField rec1 field v = parseField rec2 field v.
Proof.
  intros H. unfold parseField.
  destruct (String.eqb (Get (Tag field) "ddl") ""); [reflexivity|].
  destruct (indirect v) as [w|] eqn:E; [|reflexivity].
  destruct (String.eqb (ddlKind field) "static"); [reflexivity|].
  destruct (getInterface w) as [a|e|p] eqn:G; cbn [bind]; try reflexivity.
  destruct (Kind_eqb (TypeKind field) Struct); [|reflexivity].
  rewrite H; [reflexivity|].
  pose proof (depth_indirect v E). pose proof (depth_getInterface w G). lia.
Qed.

Lemma parseFieldStruct_ext (field : StructField) (v : Value) :
  (forall a, depthAny a <= depth (val v) -> rec1 a = rec2 a) ->
  parseFieldStruct rec1 field v = parseFieldStruct rec2 field v.
Proof.
  intros H. unfold parseFieldStruct.
  destruct (getInterface v) as [a|e|p] eqn:G; cbn [bind]; try reflexivity.
  rewrite (H a (depth_getInterface v G)). reflexivity.
Qed.

Lemma sliceElements_ext (field : StructField) (elems : list Value) :
  (forall a, depthAny a <= list_max (map (fun e => depth (val e)) elems) ->
             rec1 a = rec2 a) ->
  sliceElements rec1 field elems = sliceElements rec2 field elems.
Proof.
  induction elems as [|e rest IH]; intros H; [reflexivity|].
  cbn [sliceElements]. rewrite IH.
  - destruct (getInterface e) as [a|err|p] eqn:G; cbn [bind]; try reflexivity.
    rewrite (H a); [reflexivity|].
    pose proof (depth_getInterface e G). simpl. lia.
  - intros a Ha. apply H. simpl. lia.
Qed.

Lemma parseFieldSlice_ext (field : StructField) (v : Value) :
  (forall a, depthAny a <= depth (val v) -> rec1 a = rec2 a) ->
  parseFieldSlice rec1 field v = parseFieldSlice rec2 field v.
Proof.
  intros H. unfold parseFieldSlice.
  destruct (indirect v) as [w|] eqn:E; [|reflexivity].
  destruct (elementsOf (Some w)) as [elems|e|p] eqn:L; cbn [bind]; try reflexivity.
  rewrite (sliceElements_ext field elems); [reflexivity|].
  intros a Ha. apply H.
  pose proof (depth_indirect v E). pose proof (depth_elementsOf w L). lia.
Qed.

Lemma parseStructField_ext (sv : Value) (field : StructField) (x : value) :
  (forall a, depthAny a <= depth x -> rec1 a = rec2 a) ->
  parseStructField rec1 sv field x = parseStructField rec2 sv field x.
Proof.
  intros H. unfold parseStructField.
  destruct (indirect (Field sv field x)) as [w|] eqn:E; [|reflexivity].
  pose proof (depth_indirect _ E) as D. cbn [Field val] in D.
  assert (Hw : forall a, depthAny a <= depth (val w) -> rec1 a = rec2 a)
    by (intros a Ha; apply H; lia).
  rewrite (parseField_ext field w Hw), (parseFieldSlice_ext field w Hw),
    (parseFieldStruct_ext field w Hw).
  reflexivity.
Qed.

Lemma parseStructFields_ext (sv : Value) (fields : list (StructField * value)) :
  (forall a, depthAny a <= list_max (map (fun p => depth (snd p)) fields) ->
             rec1 a = rec2 a) ->
  parseStructFields rec1 sv fields = parseStructFields rec2 sv fields.
Proof.
  induction fields as [|[field x] rest IH]; intros H; [reflexivity|].
  simpl. rewrite IH.
  - rewrite (parseStructField_ext sv field x); [reflexivity|].
    intros a Ha. apply H. simpl. lia.
  - intros a Ha. apply H. simpl. lia.
Qed.

Lemma parseStructBody_ext (s : any) :
  (forall a, depthAny a < depthAny s -> rec1 a = rec2 a) ->
  parseStructBody rec1 s = parseStructBody rec2 s.
Proof.
  intros H. unfold parseStructBody.
  destruct (structValue s) as [v|] eqn:E; [|reflexivity].
  pose proof (depth_structValue s E) as D.
  destruct (val v) as [b|n|t|m t u|p| |d|elems|m fields]; try reflexivity.
  rewrite (parseStructFields_ext v fields); [reflexivity|].
  intros a Ha. apply H. simpl in D. lia.
Qed.

End Extensionality.

Lemma parseStructFuel_enough (n : nat) :
  forall (m : nat) (s : any), depthAny s < n -> depthAny s < m ->
  parseStructFuel n s = parseStructFuel m s.
Proof.
  induction n as [|n IH]; intros m s Hn Hm; [lia|].
  destruct m as [|m]; [lia|]. simpl.
  apply parseStructBody_ext. intros a Ha. apply IH; lia.
Qed.

(** [parseStruct] satisfies the recursive equation of the sources: its
    recursive calls are calls of [parseStruct] itself. *)
Lemma parseStruct_eq (s : any) : parseStruct s = parseStructBody parseStruct s.
Proof.
  unfold parseStruct at 1. simpl.
  apply parseStructBody_ext. intros a Ha.
  unfold parseStruct. apply parseStructFuel_enough; lia.
Qed.

(** The panic of the recursion bound does not occur. *)

Lemma bind_boundFree {A B : Type} (m : outcome A) (k : A -> outcome B) :
  boundFree m -> (forall a, boundFree (k a)) -> boundFree (bind m k).
Proof.
  unfold boundFree. destruct m as [a|e|msg]; simpl; intros Hm Hk;
    [apply Hk|discriminate|congruence].
Qed.

Lemma getInterface_Panic (v : Value) (p : panic) :
  getInterface v = Panic p -> p = UnaddressableValue.
Proof.
  unfold getInterface.
  destruct (flagRO v), (flagAddr v); cbn [negb]; intros E; now inversion E.
Qed.

Lemma getInterface_Err (v : Value) (e : error) : getInterface v <> Err e.
Proof.
  unfold getInterface.
  destruct (flagRO v), (flagAddr v); discriminate.
Qed.

Ltac bound_free :=
  repeat first
    [ apply bind_boundFree; [|intros ?]
    | match goal with
      | |- boundFree (Ok _) => discriminate
      | |- boundFree (Err _) => discriminate
      | |- boundFree (Panic _) => discriminate
      | |- boundFree (if ?c then _ else _) => destruct c
      | |- boundFree (match ?x with _ => _ end) => destruct x
      end ].

Section BoundFree.

Variable rec : any -> outcome (list clause).

Lemma parseField_boundFree (field : StructField) (v : Value) :
  (forall a, depthAny a <= depth (val v) -> boundFree (rec a)) ->
  boundFree (parseField rec field v).
Proof.
  intros H. unfold parseField.
  destruct (String.eqb (Get (Tag field) "ddl") ""); [discriminate|].
  destruct (indirect v) as [w|] eqn:E; [|bound_free].
  destruct (String.eqb (ddlKind field) "static"); [discriminate|].
  destruct (getInterface w) as [a|e|p] eqn:G; cbn [bind];
    [|discriminate|apply getInterface_Panic in G; subst; discriminate].
  assert (Hw : boundFree (rec a)).
  { apply H. pose proof (depth_indirect v E). pose proof (depth_getInterface w G). lia. }
  bound_free; exact Hw.
Qed.

Lemma parseFieldStruct_boundFree (field : StructField) (v : Value) :
  (forall a, depthAny a <= depth (val v) -> boundFree (rec a)) ->
  boundFree (parseFieldStruct rec field v).
Proof.
  intros H. unfold parseFieldStruct.
  destruct (getInterface v) as [a|e|p] eqn:G; cbn [bind];
    [|discriminate|apply getInterface_Panic in G; subst; discriminate].
  pose proof (H a (depth_getInterface v G)) as Hv.
  bound_free; exact Hv.
Qed.

Lemma sliceElements_boundFree (field : StructField) (elems : list Value) :
  (forall a, depthAny a <= list_max (map (fun e => depth (val e)) elems) ->
             boundFree (rec a)) ->
  boundFree (sliceElements rec field elems).
Proof.
  induction elems as [|e rest IH]; intros H; [discriminate|].
  cbn [sliceElements].
  assert (Hr : boundFree (sliceElements rec field rest)).
  { apply IH. intros a Ha. apply H. simpl. lia. }
  destruct (getInterface e) as [a|err|p] eqn:G; cbn [bind];
    [|discriminate|apply getInterface_Panic in G; subst; discriminate].
  assert (He : boundFree (rec a)).
  { apply H. pose proof (depth_getInterface e G). simpl. lia. }
  apply bind_boundFree; [bound_free; exact He|].
  intros c. apply bind_boundFree; [exact Hr|]. intros cs. discriminate.
Qed.

Lemma renderedElements_boundFree (l : list elementClause) :
  boundFree (renderedElements l).
Proof.
  induction l as [|[c|] l IH]; cbn [renderedElements]; try discriminate.
  apply bind_boundFree; [exact IH|]. intros cs. discriminate.
Qed.

Lemma parseFieldSlice_boundFree (field : StructField) (v : Value) :
  (forall a, depthAny a <= depth (val v) -> boundFree (rec a)) ->
  boundFree (parseFieldSlice rec field v).
Proof.
  intros H. unfold parseFieldSlice.
  destruct (indirect v) as [w|] eqn:E; [|discriminate].
  destruct (elementsOf (Some w)) as [elems|e|p] eqn:L; cbn [bind]; [|discriminate|].
  - apply bind_boundFree.
    + apply sliceElements_boundFree. intros a Ha. apply H.
      pose proof (depth_indirect v E). pose proof (depth_elementsOf w L). lia.
    + intros listClauses. destruct listClauses as [|c l]; [discriminate|].
      apply bind_boundFree; [apply renderedElements_boundFree|].
      intros cs. bound_free.
  - unfold elementsOf in L.
    destruct (val w) as [b|n|t|m t [b|n|u]|q| |d|es|m fields]; inversion L; discriminate.
Qed.

Lemma parseStructField_boundFree (sv : Value) (field : StructField) (x : value) :
  (forall a, depthAny a <= depth x -> boundFree (rec a)) ->
  boundFree (parseStructField rec sv field x).
Proof.
  intros H. unfold parseStructField.
  destruct (indirect (Field sv field x)) as [w|] eqn:E; [|discriminate].
  pose proof (depth_indirect _ E) as D. cbn [Field val] in D.
  assert (Hw : forall a, depthAny a <= depth (val w) -> boundFree (rec a))
    by (intros a Ha; apply H; lia).
  pose proof (parseField_boundFree field w Hw) as B1.
  pose proof (parseFieldSlice_boundFree field w Hw) as B2.
  pose proof (parseFieldStruct_boundFree field w Hw) as B3.
  destruct (val w) as [b|n|t|m t u|p| |d|elems|m fields];
    (apply bind_boundFree; [assumption|intros ?; discriminate]).
Qed.

Lemma parseStructFields_boundFree (sv : Value) (fields : list (StructField * value)) :
  (forall a, depthAny a <= list_max (map (fun p => depth (snd p)) fields) ->
             boundFree (rec a)) ->
  boundFree (parseStructFields rec sv fields).
Proof.
  induction fields as [|[field x] rest IH]; intros H; [discriminate|].
  cbn [parseStructFields]. apply bind_boundFree.
  - apply parseStructField_boundFree. intros a Ha. apply H. simpl. lia.
  - intros c. apply bind_boundFree; [|intros cs; discriminate].
    apply IH. intros a Ha. apply H. simpl. lia.
Qed.

Lemma parseStructBody_boundFree (s : any) :
  (forall a, depthAny a < depthAny s -> boundFree (rec a)) ->
  boundFree (parseStructBody rec s).
Proof.
  intros H. unfold parseStructBody.
  destruct (structValue s) as [v|] eqn:E; [|discriminate].
  pose proof (depth_structValue s E) as D.
  destruct (val v) as [b|n|t|m t u|p| |d|elems|m fields]; try discriminate.
  apply bind_boundFree; [|intros ?; discriminate].
  apply parseStructFields_boundFree. intros a Ha. apply H. simpl in D. lia.
Qed.

End BoundFree.

Lemma parseStructFuel_boundFree (n : nat) :
  forall s : any, depthAny s < n -> boundFree (parseStructFuel n s).
Proof.
  induction n as [|n IH]; intros s Hs; [lia|].
  cbn [parseStructFuel]. apply parseStructBody_boundFree.
  intros a Ha. apply IH. lia.
Qed.

Lemma parseStruct_boundFree (s : any) : boundFree (parseStruct s).
Proof. apply parseStructFuel_boundFree. lia. Qed.

(** ** Package [strings] *)

Lemma append_nil_r (s : string) : (s ++ "")%string = s.
Proof. induction s as [|c s IH]; simpl; [reflexivity|now rewrite IH]. Qed.

Lemma append_assoc (a b c : string) : ((a ++ b) ++ c)%string = (a ++ b ++ c)%string.
Proof. induction a as [|x a IH]; simpl; [reflexivity|now rewrite IH]. Qed.

Lemma splitFrom_not_nil (sep s : string) :
  forall (skip : nat) (cur : string), strings.splitFrom sep s skip cur <> [].
Proof.
  induction s as [|c s IH]; intros skip cur; cbn [strings.splitFrom]; [discriminate|].
  destruct skip; [|apply IH].
  destruct (strings.HasPrefix (String c s) sep); [discriminate|apply IH].
Qed.

Lemma Join_cons (x : string) (l : list string) (sep : string) :
  l <> [] -> strings.Join (x :: l) sep = (x ++ sep ++ strings.Join l sep)%string.
Proof. destruct l; [congruence|reflexivity]. Qed.

(** With a separator of one character, the pieces of the scan joined by
    [new] are the string with that character replaced throughout. *)
Lemma Join_splitFrom_char (c : ascii) (new : string) (s : string) :
  forall cur : string,
  strings.Join (strings.splitFrom (String c "") s 0 cur) new
  = (cur ++ replaceEach c new s)%string.
Proof.
  induction s as [|a s IH]; intros cur;
    cbn [strings.splitFrom strings.HasPrefix strings.Join replaceEach String.length Nat.sub].
  - now rewrite append_nil_r.
  - rewrite (Ascii.eqb_sym c a), andb_true_r.
    destruct (Ascii.eqb a c).
    + rewrite Join_cons by apply splitFrom_not_nil.
      rewrite IH. reflexivity.
    + rewrite IH, append_assoc. reflexivity.
Qed.

Lemma ReplaceAll_char (c : ascii) (new s : string) :
  strings.ReplaceAll s (String c "") new = replaceEach c new s.
Proof. unfold strings.ReplaceAll. now rewrite Join_splitFrom_char. Qed.

Ltac strings_cbn :=
  cbn [strings.HasPrefix strings.HasSuffix strings.TrimLeft strings.TrimRight
       strings.inCutset strings.splitFrom strings.Join String.length Nat.sub
       dotSegments afterFirstDot replaceEach String.append skipn] in *.

Lemma TrimLeft_space_prefix (s : string) :
  strings.HasPrefix (strings.TrimLeft s " ") " " = false.
Proof.
  induction s as [|c s IH]; [reflexivity|]. strings_cbn.
  rewrite orb_false_r.
  destruct (Ascii.eqb c " ") eqn:E; [exact IH|].
  strings_cbn. now rewrite Ascii.eqb_sym, E.
Qed.

Lemma TrimRight_space_prefix (s : string) :
  strings.HasPrefix s " " = false ->
  strings.HasPrefix (strings.TrimRight s " ") " " = false.
Proof.
  destruct s as [|c s]; [reflexivity|]. strings_cbn.
  rewrite andb_true_r, orb_false_r, (Ascii.eqb_sym " " c). intros E. rewrite E.
  destruct (strings.TrimRight s " "); strings_cbn;
    now rewrite andb_true_r, (Ascii.eqb_sym " " c).
Qed.

Lemma eqb_single (c d : ascii) : String.eqb (String c "") (String d "") = Ascii.eqb c d.
Proof.
  destruct (Ascii.eqb c d) eqn:E.
  - apply Ascii.eqb_eq in E. subst. apply String.eqb_refl.
  - apply String.eqb_neq. intros H. inversion H. subst.
    now rewrite Ascii.eqb_refl in E.
Qed.

Lemma eqb_longer (c d e : ascii) (r : string) :
  String.eqb (String c (String d r)) (String e "") = false.
Proof. apply String.eqb_neq. discriminate. Qed.

Lemma TrimRight_space_suffix (s : string) :
  strings.HasSuffix (strings.TrimRight s " ") " " = false.
Proof.
  induction s as [|c s IH]; [reflexivity|]. strings_cbn.
  destruct (strings.TrimRight s " ") as [|d r] eqn:E.
  - rewrite orb_false_r. destruct (Ascii.eqb c " ") eqn:Ec; [reflexivity|].
    strings_cbn. rewrite eqb_single, Ec. reflexivity.
  - strings_cbn. rewrite eqb_longer. exact IH.
Qed.

Lemma TrimLeft_space_id (s : string) :
  strings.HasPrefix s " " = false -> strings.TrimLeft s " " = s.
Proof.
  destruct s as [|c s]; [reflexivity|]. strings_cbn.
  rewrite andb_true_r, orb_false_r, (Ascii.eqb_sym " " c). now intros ->.
Qed.

Lemma TrimRight_space_id (s : string) :
  strings.HasSuffix s " " = false -> strings.TrimRight s " " = s.
Proof.
  induction s as [|c s IH]; [reflexivity|]. strings_cbn.
  intros H. apply orb_false_elim in H. destruct H as [H1 H2].
  rewrite (IH H2). destruct s as [|d r]; [|reflexivity].
  rewrite orb_false_r. rewrite eqb_single in H1. now rewrite H1.
Qed.

Lemma Trim_space_id (s : string) :
  strings.HasPrefix s " " = false -> strings.HasSuffix s " " = false ->
  strings.Trim s " " = s.
Proof.
  intros H1 H2. unfold strings.Trim.
  rewrite (TrimLeft_space_id s H1). now apply TrimRight_space_id.
Qed.

Lemma dotSegments_not_nil (s : string) : dotSegments s <> [].
Proof.
  destruct s as [|c s]; simpl; [discriminate|].
  destruct (Ascii.eqb c "."); [discriminate|].
  destruct (dotSegments s); discriminate.
Qed.

(** [strings.Split] at dots computes the dot-separated segments. *)
Lemma splitFrom_dot (s : string) :
  forall cur : string,
  strings.splitFrom "." s 0 cur
  = match dotSegments s with
    | h :: t => (cur ++ h)%string :: t
    | [] => [cur]
    end.
Proof.
  induction s as [|c s IH]; intros cur; strings_cbn.
  - now rewrite append_nil_r.
  - rewrite (Ascii.eqb_sym "." c), andb_true_r.
    destruct (Ascii.eqb c ".").
    + simpl. rewrite append_nil_r, IH.
      destruct (dotSegments s) eqn:E; [now apply dotSegments_not_nil in E|reflexivity].
    + rewrite IH. destruct (dotSegments s) as [|h t]; [reflexivity|].
      now rewrite append_assoc.
Qed.

Lemma Split_dot (s : string) : strings.Split s "." = dotSegments s.
Proof.
  unfold strings.Split. rewrite splitFrom_dot.
  destruct (dotSegments s) eqn:E; [now apply dotSegments_not_nil in E|reflexivity].
Qed.

Lemma Join_dotSegments (s : string) : strings.Join (dotSegments s) "." = s.
Proof.
  induction s as [|c s IH]; [reflexivity|]. strings_cbn.
  destruct (Ascii.eqb c ".") eqn:E.
  - apply Ascii.eqb_eq in E. subst c.
    rewrite Join_cons by apply dotSegments_not_nil. now rewrite IH.
  - destruct (dotSegments s) as [|h t] eqn:D; [now apply dotSegments_not_nil in D|].
    destruct t as [|h' t]; strings_cbn; now rewrite <- IH.
Qed.

Lemma Join_tail_dotSegments (s : string) :
  strings.Join (skipn 1 (dotSegments s)) "." = afterFirstDot s.
Proof.
  induction s as [|c s IH]; [reflexivity|]. strings_cbn.
  destruct (Ascii.eqb c ".").
  - simpl. apply Join_dotSegments.
  - destruct (dotSegments s) as [|h t] eqn:E; [now apply dotSegments_not_nil in E|].
    exact IH.
Qed.

(** ** The assembler *)

Unset Implicit Arguments.

Lemma sList_nonEmptyTexts (clauses : list sqlClause) :
  sList clauses = nonEmptyTexts clauses.
Proof.
  unfold nonEmptyTexts.
  induction clauses as [|[c|] rest IH]; cbn [sList flat_map app filter]; auto.
  rewrite <- IH. now destruct (String.eqb (clause_String c) "").
Qed.

Lemma sql_single (c : clause) : sql [Some c] = strings.Trim (clause_String c) " ".
Proof.
  unfold sql. cbn [sList].
  destruct (String.eqb_spec (clause_String c) "") as [E|E]; [|reflexivity].
  now rewrite E.
Qed.

(** C7 (amended): the assembler joins the rendered texts of the clauses
    that are not nil and not empty with single spaces and trims the
    spaces at both ends of the joined text; the result neither starts nor
    ends with a space, and it is exactly the joined text whenever that
    text neither starts nor ends with a space. *)
Theorem sql_joins_and_trims (clauses : list sqlClause) :
  sql clauses = strings.Trim (strings.Join (nonEmptyTexts clauses) " ") " "
  /\ strings.HasPrefix (sql clauses) " " = false
  /\ strings.HasSuffix (sql clauses) " " = false
  /\ (strings.HasPrefix (strings.Join (nonEmptyTexts clauses) " ") " " = false ->
      strings.HasSuffix (strings.Join (nonEmptyTexts clauses) " ") " " = false ->
      sql clauses = strings.Join (nonEmptyTexts clauses) " ").
Proof.
  unfold sql. rewrite sList_nonEmptyTexts. unfold strings.Trim.
  repeat split.
  - apply TrimRight_space_prefix, TrimLeft_space_prefix.
  - apply TrimRight_space_suffix.
  - intros H1 H2. now apply Trim_space_id.
Qed.

(** ** Modifiers and clauses *)

(** C3: the double-quote modifier wraps the string in double quotes and
    doubles every double quote inside it, the single-quote modifier wraps
    it in single quotes and replaces every single quote inside it by
    backslash-quote, and the no-quotes modifier returns it unchanged. *)
Theorem quoteModifier_Modify_escapes (v : string) :
  quoteModifier_Modify DoubleQuotes (str v)
  = (dquote ++ replaceEach (ascii_of_nat 34) (dquote ++ dquote) v ++ dquote)%string
  /\ quoteModifier_Modify SingleQuotes (str v)
     = (squote ++ replaceEach "'"%char backslash_squote v ++ squote)%string
  /\ quoteModifier_Modify NoQuotes (str v) = v.
Proof.
  unfold quoteModifier_Modify.
  change (quoteModifier_String DoubleQuotes) with dquote.
  change (quoteModifier_String SingleQuotes) with squote.
  change (Sprint (str v)) with v.
  repeat split.
  - change (String.eqb DoubleQuotes NoQuotes) with false.
    change (String.eqb DoubleQuotes DoubleQuotes) with true.
    cbv iota. unfold dquote at 2. now rewrite ReplaceAll_char.
  - change (String.eqb SingleQuotes NoQuotes) with false.
    change (String.eqb SingleQuotes DoubleQuotes) with false.
    change (String.eqb SingleQuotes SingleQuotes) with true.
    cbv iota. unfold squote at 2. now rewrite ReplaceAll_char.
Qed.

(** C6 (amended): a parameter clause with key [k] and value [v] renders,
    without the reverse modifier, as the equality-modified key followed by
    the quote-modified value when the value is not nil, and as the
    equality-modified key alone when it is nil; with the reverse modifier
    it renders as the quote-modified value, one space, and the key,
    whatever the equality modifier.  Under equals and double quotes a
    key [k] with the string [s] is [k = ] followed by [s] in double
    quotes, and under the reverse modifier [s] in double quotes, a space
    and [k]. *)
Theorem sqlParameterClause_String (k : string) (v : any)
    (qm : quoteModifier) (em : equalsModifier) (rm : reverseModifier) :
  (rm <> Reverse -> v <> None ->
   clause_String (sqlParameterClause k v qm em rm)
   = (equalsModifier_Modify em (str k) ++ quoteModifier_Modify qm v)%string)
  /\ (rm <> Reverse ->
      clause_String (sqlParameterClause k None qm em rm)
      = equalsModifier_Modify em (str k))
  /\ clause_String (sqlParameterClause k v qm em Reverse)
     = (quoteModifier_Modify qm v ++ " " ++ k)%string
  /\ (forall s : string, k <> "" -> strings.HasPrefix k " " = false ->
      clause_String (sqlParameterClause k (str s) DoubleQuotes Equals rm)
      = if String.eqb rm Reverse
        then (dquote ++ replaceEach (ascii_of_nat 34) (dquote ++ dquote) s ++ dquote
              ++ " " ++ k)%string
        else (k ++ " = " ++ dquote
              ++ replaceEach (ascii_of_nat 34) (dquote ++ dquote) s ++ dquote)%string).
Proof.
  assert (Q : forall s, quoteModifier_Modify DoubleQuotes (str s)
              = (dquote ++ replaceEach (ascii_of_nat 34) (dquote ++ dquote) s
                 ++ dquote)%string).
  { intros s. unfold quoteModifier_Modify.
    change (quoteModifier_String DoubleQuotes) with dquote.
    change (Sprint (str s)) with s.
    change (String.eqb DoubleQuotes NoQuotes) with false.
    change (String.eqb DoubleQuotes DoubleQuotes) with true.
    cbv iota. unfold dquote at 2. now rewrite ReplaceAll_char. }
  cbn [clause_String]. split; [|split; [|split]].
  - intros H Hv. apply String.eqb_neq in H. rewrite H.
    destruct v; [reflexivity|congruence].
  - intros H. apply String.eqb_neq in H. now rewrite H.
  - reflexivity.
  - intros s Hk Hp. rewrite Q. destruct (String.eqb rm Reverse) eqn:E.
    + apply String.eqb_eq in E. subst rm. cbn. now rewrite !append_assoc.
    + unfold equalsModifier_Modify. change (String.eqb Equals Equals) with true.
      cbv iota. change (Sprint (str k)) with k.
      destruct k as [|c k]; [congruence|].
      rewrite TrimLeft_space_id; [now rewrite append_assoc|].
      cbn [String.append strings.HasPrefix] in *. exact Hp.
Qed.

(** The example of the specification: [k = "v"] under equals and double
    quotes, the value first under the reverse modifier. *)
Lemma sqlParameterClause_example :
  clause_String (sqlParameterClause "k" (str "v") DoubleQuotes Equals NoReverse)
  = ("k = " ++ dquote ++ "v" ++ dquote)%string
  /\ clause_String (sqlParameterClause "k" (str "v") DoubleQuotes Equals Reverse)
     = (dquote ++ "v" ++ dquote ++ " k")%string.
Proof. split; reflexivity. Qed.

(** ** The encoder, field by field *)

Lemma ddl_not_empty (field : StructField) :
  ddlKind field <> "" -> String.eqb (Get (Tag field) "ddl") "" = false.
Proof.
  intros H. apply String.eqb_neq. intros E. apply H.
  unfold ddlKind. now rewrite E.
Qed.

Ltac kind_is H :=
  rewrite ?(ddl_not_empty _ ltac:(rewrite H; discriminate)), ?H;
  cbn [String.eqb Ascii.eqb Bool.eqb].

Lemma getInterface_Ok (v : Value) :
  flagRO v = false \/ flagAddr v = true ->
  getInterface v = Ok (Value_Interface (val v)).
Proof.
  unfold getInterface. destruct (flagRO v), (flagAddr v); intros [H|H];
    try discriminate H; reflexivity.
Qed.

Lemma getInterface_unaddressable (v : Value) :
  flagRO v = true -> flagAddr v = false -> getInterface v = Panic UnaddressableValue.
Proof. unfold getInterface. now intros -> ->. Qed.


(** The value a round of [parseStruct] hands on: the field, or what it
    points to. *)
Lemma indirect_Field (sv : Value) (field : StructField) (x w : value) :
  deref x = Some w ->
  indirect (Field sv field x)
  = Some (mkValue (flagRO sv || negb (IsExported field))
            (Kind_eqb (KindOf (Some x)) Ptr || flagAddr sv) w).
Proof. unfold indirect. cbn [Field val flagRO flagAddr]. now intros ->. Qed.

(** C5 (amended): for a field whose kind tag is static, [parseField]
    returns the static clause of the name tag whatever the value is, and so
    does a round of [parseStruct] on a value that, once a non-nil pointer
    is dereferenced, is neither a slice nor a struct; a static field that
    is a nil pointer is skipped. *)
Theorem static_field (rec : any -> outcome (list clause)) (field : StructField) :
  ddlKind field = "static" ->
  (forall v : Value,
     parseField rec field v = Ok (Some (sqlStaticClause (Get (Tag field) "db"))))
  /\ (forall (sv : Value) (x w : value),
       deref x = Some w ->
       scalarShaped w = true ->
       parseStructField rec sv field x
       = Ok (Some (Some (sqlStaticClause (Get (Tag field) "db")))))
  /\ (forall sv : Value, parseStructField rec sv field (VPtr None) = Ok None).
Proof.
  intros H.
  assert (P : forall v : Value,
            parseField rec field v = Ok (Some (sqlStaticClause (Get (Tag field) "db")))).
  { intros v. unfold parseField. kind_is H. reflexivity. }
  split; [exact P|]. split; [|reflexivity].
  intros sv x w E Hw. unfold parseStructField. rewrite (indirect_Field sv field x w E).
  cbn [val].
  destruct w as [b|n|t|m t u|p| |d|elems|m fields]; try discriminate Hw; now rewrite P.
Qed.



(** C10 (amended): for a struct field whose kind tag is identifier and
    whose value provides the [Identifier] methods with an empty name,
    [parseFieldStruct] returns no clause and no error, although the
    identifier is not valid, unless the value is read-only and not
    addressable, in which case [getInterface] panics before the tag is
    looked at.  A struct with that single field encodes to the empty
    statement when it is passed by pointer, and also by value when the
    field is exported. *)
Theorem identifier_field_empty_name (rec : any -> outcome (list clause))
    (field : StructField) (methods : Identifier)
    (fields : list (StructField * value)) (v : Value) :
  ddlKind field = "identifier" ->
  Name methods = "" ->
  val v = VStruct (Some methods) fields ->
  (flagRO v = false \/ flagAddr v = true -> parseFieldStruct rec field v = Ok None)
  /\ (flagRO v = true -> flagAddr v = false ->
      parseFieldStruct rec field v = Panic UnaddressableValue)
  /\ validObjectidentifier methods = false
  /\ structToSQL (Some (VPtr (Some (VStruct None [(field, VStruct (Some methods) fields)]))))
     = Ok ""
  /\ (IsExported field = true ->
      structToSQL (Some (VStruct None [(field, VStruct (Some methods) fields)])) = Ok "").
Proof.
  intros H HN Hv.
  assert (P : forall r (u : Value),
            val u = VStruct (Some methods) fields ->
            flagRO u = false \/ flagAddr u = true ->
            parseFieldStruct r field u = Ok None).
  { intros r u Hu HR. unfold parseFieldStruct. rewrite (getInterface_Ok u HR), Hu.
    cbn [bind Value_Interface asIdentifier]. kind_is H. now rewrite HN. }
  split; [exact (P rec v Hv)|]. split; [|split; [|split]].
  - intros R A. unfold parseFieldStruct.
    now rewrite (getInterface_unaddressable v R A).
  - unfold validObjectidentifier. now rewrite HN.
  - unfold structToSQL. rewrite parseStruct_eq.
    unfold parseStructBody, structValue, parseStructFields, parseStructField.
    cbn [ValueOf indirect deref val flagRO flagAddr Field KindOf Kind_eqb orb].
    rewrite P; [reflexivity|reflexivity|now right].
  - intros X. unfold structToSQL. rewrite parseStruct_eq.
    unfold parseStructBody, structValue, parseStructFields, parseStructField.
    cbn [ValueOf indirect deref val flagRO flagAddr Field KindOf Kind_eqb orb].
    rewrite X. cbn [negb].
    rewrite P; [reflexivity|reflexivity|now left].
Qed.

(** ** [grants.go] *)

(** C1: the options value with the static field GRANT, the privilege
    SELECT, no ON part and the share identifier named S1 encodes, without
    error, to GRANT SELECT TO SHARE followed by S1 in double quotes. *)
Theorem grant_select_to_share (grant : bool) :
  structToSQL
    (reflectGrantPrivilegeToShareOptions
       (mkGrantPrivilegeToShareOptions grant "SELECT" None (mkObjectIdentifier [] "S1")))
  = Ok ("GRANT SELECT TO SHARE " ++ dquote ++ "S1" ++ dquote)%string.
Proof. destruct grant; vm_compute; reflexivity. Qed.

(** C9: [toGrant] returns no error; when the row is granted to a share,
    the grantee name is built from the dot-join of the dot-separated
    segments of the row's grantee name after the first one, which is what
    follows the first dot of that name; otherwise it is built from the
    row's grantee name unchanged. *)
Theorem toGrant_grantee_name (row : grantRow) :
  exists grant : Grant,
    toGrant row = Ok grant
    /\ (row_GrantedTo row = ObjectTypeShare ->
        Grant_GranteeName grant
        = NewAccountObjectIdentifier
            (strings.Join (skipn 1 (dotSegments (row_GranteeName row))) ".")
        /\ Grant_GranteeName grant
           = NewAccountObjectIdentifier (afterFirstDot (row_GranteeName row)))
    /\ (row_GrantedTo row <> ObjectTypeShare ->
        Grant_GranteeName grant = NewAccountObjectIdentifier (row_GranteeName row)).
Proof.
  unfold toGrant. eexists. split; [reflexivity|]. cbn [Grant_GranteeName]. split.
  - intros ->. rewrite String.eqb_refl, Split_dot.
    split; [reflexivity|]. now rewrite Join_tail_dotSegments.
  - intros H. apply String.eqb_neq in H. now rewrite H.
Qed.

(** C2: when the three selectors of the options are all unset, and more
    generally when not exactly one of them is set, [Show] returns the
    error of the validation and calls neither the encoder nor the
    client. *)
Theorem Show_rejects_invalid_selectors (opts : ShowGrantsOptions) :
  (Show_On opts = None /\ Show_To opts = None /\ Show_Of opts = None)
  \/ exactlyOneValueSet (selectors opts) = false ->
  exists err : error,
    ShowGrantsOptions_validate opts = Some err
    /\ Show (Some opts) = ([], Err err).
Proof.
  intros H.
  assert (V : exists err, ShowGrantsOptions_validate opts = Some err).
  { unfold ShowGrantsOptions_validate.
    destruct (everyValueNil (selectors opts)) eqn:N; [eauto|].
    destruct H as [(H1 & H2 & H3)|H].
    - unfold everyValueNil, selectors in N. rewrite H1, H2, H3 in N. discriminate N.
    - rewrite H. cbn [negb]. eauto. }
  destruct V as [err V]. exists err. split; [exact V|].
  unfold Show. now rewrite V.
Qed.

(** The selectors that are set are the pointers that are not nil. *)
Lemma exactlyOneValueSet_selectors (opts : ShowGrantsOptions) :
  let set_ {A : Type} (p : option A) := match p with Some _ => 1 | None => 0 end in
  exactlyOneValueSet (selectors opts)
  = Nat.eqb (set_ (Show_On opts) + set_ (Show_To opts) + set_ (Show_Of opts)) 1.
Proof.
  unfold exactlyOneValueSet, selectors.
  destruct (Show_On opts), (Show_To opts), (Show_Of opts); reflexivity.
Qed.

(** A nil options pointer is replaced by the empty options, which fail
    the validation in the same way. *)
Lemma Show_nil_options :
  Show None = ([], Err (Errorf "at least one of on, to, or of is required")).
Proof. reflexivity. Qed.

(** * Further properties *)

(** ** Modifiers *)

Lemma nth_middle_at (a : list string) (x : string) (rest : list string) :
  nth (List.length a) (a ++ x :: rest) "" = x.
Proof. induction a as [|y a IH]; [reflexivity|exact IH]. Qed.

Lemma set_middle_at (a : list string) (x z : string) (rest : list string) :
  firstn (List.length a) (a ++ x :: rest)
  ++ z :: skipn (S (List.length a)) (a ++ x :: rest)
  = a ++ z :: rest.
Proof.
  induction a as [|y a IH]; [reflexivity|].
  change (firstn (List.length (y :: a)) ((y :: a) ++ x :: rest))
    with (y :: firstn (List.length a) (a ++ x :: rest)).
  change (skipn (S (List.length (y :: a))) ((y :: a) ++ x :: rest))
    with (skipn (S (List.length a)) (a ++ x :: rest)).
  cbn [app]. now rewrite IH.
Qed.

Lemma swap_ends (a m b : list string) (x y : string) :
  swap (a ++ x :: m ++ y :: b) (List.length a) (List.length a + 1 + List.length m)
  = a ++ y :: m ++ x :: b.
Proof.
  unfold swap.
  assert (J : List.length a + 1 + List.length m = List.length (a ++ x :: m))
    by (rewrite length_app; simpl; lia).
  assert (J' : List.length a + 1 + List.length m = List.length (a ++ y :: m))
    by (rewrite length_app; simpl; lia).
  rewrite nth_middle_at.
  replace (nth (List.length a + 1 + List.length m) (a ++ x :: m ++ y :: b) "")
    with y.
  2:{ rewrite J. change (a ++ x :: m ++ y :: b) with (a ++ (x :: m) ++ y :: b).
      rewrite app_assoc. now rewrite nth_middle_at. }
  rewrite set_middle_at.
  rewrite J'. change (a ++ y :: m ++ y :: b) with (a ++ (y :: m) ++ y :: b).
  rewrite app_assoc, set_middle_at, <- app_assoc. reflexivity.
Qed.

Lemma reverseLoop_ends (n : nat) :
  forall a m b : list string,
  List.length a = n -> List.length b = n ->
  reverseLoop n (a ++ m ++ b) = rev b ++ m ++ rev a.
Proof.
  induction n as [|i IH]; intros a m b Ha Hb.
  - destruct a; [|discriminate]. destruct b; [|discriminate].
    cbn [reverseLoop rev app]. reflexivity.
  - destruct (exists_last (l := a)) as (a' & x & ->);
      [intros ->; discriminate|].
    destruct b as [|y b']; [discriminate|].
    rewrite length_app in Ha. simpl in Ha, Hb.
    assert (Ha' : List.length a' = i) by lia.
    assert (Hb' : List.length b' = i) by lia.
    cbn [reverseLoop].
    replace ((a' ++ [x]) ++ m ++ y :: b') with (a' ++ x :: m ++ y :: b')
      by (now rewrite <- app_assoc).
    replace (List.length (a' ++ x :: m ++ y :: b') - 1 - i)
      with (List.length a' + 1 + List.length m)
      by (rewrite !length_app; simpl; rewrite length_app; simpl; lia).
    rewrite <- Ha' at 2. rewrite swap_ends.
    change (a' ++ y :: m ++ x :: b') with (a' ++ (y :: m ++ x :: b')).
    replace (y :: m ++ x :: b') with ((y :: m ++ [x]) ++ b')
      by (cbn [app]; rewrite <- app_assoc; reflexivity).
    rewrite (IH a' (y :: m ++ [x]) b' Ha' Hb').
    rewrite rev_app_distr. cbn [rev app]. rewrite <- !app_assoc. reflexivity.
Qed.

Lemma reverseLoop_rev (l : list string) :
  reverseLoop (Nat.div (List.length l) 2) l = rev l.
Proof.
  set (h := Nat.div (List.length l) 2).
  assert (Hh : 2 * h <= List.length l /\ List.length l <= 2 * h + 1).
  { unfold h. pose proof (Nat.div_mod_eq (List.length l) 2).
    pose proof (Nat.mod_upper_bound (List.length l) 2). lia. }
  set (k := List.length l - 2 * h).
  rewrite <- (firstn_skipn h l) at 1 2.
  rewrite <- (firstn_skipn k (skipn h l)) at 1 2.
  rewrite reverseLoop_ends.
  - rewrite !rev_app_distr, <- app_assoc. f_equal. f_equal.
    assert (Hm : List.length (firstn k (skipn h l)) <= 1).
    { rewrite length_firstn. unfold k. lia. }
    destruct (firstn k (skipn h l)) as [|z [|z' r]]; try reflexivity.
    simpl in Hm. lia.
  - rewrite length_firstn. lia.
  - rewrite !length_skipn. unfold k. lia.
Qed.

(** X1: the swapping loop of the reverse modifier reverses its argument,
    whatever its length: with the reverse modifier the elements are joined
    in reverse order, with any other modifier text in the given order. *)
Theorem reverseModifier_Modify_order (rm : reverseModifier) (v : list string) :
  reverseModifier_Modify Reverse v = strings.Join (rev v) " "
  /\ (rm <> Reverse -> reverseModifier_Modify rm v = strings.Join v " ").
Proof.
  split.
  - unfold reverseModifier_Modify.
    change (String.eqb Reverse NoReverse) with false.
    change (String.eqb Reverse Reverse) with true.
    cbv iota. now rewrite reverseLoop_rev.
  - intros H. unfold reverseModifier_Modify.
    apply String.eqb_neq in H. rewrite H.
    now destruct (String.eqb rm NoReverse).
Qed.

Lemma replaceEach_absent (c : ascii) (new v : string) :
  strings.Contains v (String c "") = false -> replaceEach c new v = v.
Proof.
  induction v as [|a v IH]; [reflexivity|].
  cbn [strings.Contains strings.HasPrefix replaceEach].
  rewrite andb_true_r, (Ascii.eqb_sym c a).
  destruct (Ascii.eqb a c); [discriminate|].
  cbn [orb]. intros H. now rewrite (IH H).
Qed.

(** X2: a value that does not contain the quote character is wrapped in
    the quotes unchanged, under double quotes as under single quotes;
    in particular a backslash is not escaped. *)
Theorem quoteModifier_Modify_plain (v : string) :
  (strings.Contains v dquote = false ->
   quoteModifier_Modify DoubleQuotes (str v) = (dquote ++ v ++ dquote)%string)
  /\ (strings.Contains v squote = false ->
      quoteModifier_Modify SingleQuotes (str v) = (squote ++ v ++ squote)%string).
Proof.
  unfold quoteModifier_Modify.
  change (quoteModifier_String DoubleQuotes) with dquote.
  change (quoteModifier_String SingleQuotes) with squote.
  change (Sprint (str v)) with v.
  change (String.eqb DoubleQuotes NoQuotes) with false.
  change (String.eqb DoubleQuotes DoubleQuotes) with true.
  change (String.eqb SingleQuotes NoQuotes) with false.
  change (String.eqb SingleQuotes DoubleQuotes) with false.
  change (String.eqb SingleQuotes SingleQuotes) with true.
  cbv iota. split; intros H.
  - unfold dquote at 2. rewrite ReplaceAll_char.
    now rewrite (replaceEach_absent _ _ _ H).
  - unfold squote at 2. rewrite ReplaceAll_char.
    now rewrite (replaceEach_absent _ _ _ H).
Qed.

Lemma append_inj_l (s a b : string) : (s ++ a)%string = (s ++ b)%string -> a = b.
Proof.
  induction s as [|c s IH]; cbn [String.append]; intros H; [exact H|].
  inversion H. now apply IH.
Qed.

Lemma length_append (a b : string) :
  String.length (a ++ b) = String.length a + String.length b.
Proof. induction a as [|c a IH]; cbn [String.append String.length]; lia. Qed.

Lemma append_inj_r (s : string) :
  forall a b : string, (a ++ s)%string = (b ++ s)%string -> a = b.
Proof.
  induction a as [|c a IH]; intros [|d b] H; cbn [String.append] in H.
  - reflexivity.
  - apply (f_equal String.length) in H. cbn [String.length] in H.
    rewrite length_append in H. lia.
  - apply (f_equal String.length) in H. cbn [String.length] in H.
    rewrite length_append in H. lia.
  - inversion H. f_equal. now apply IH.
Qed.

Lemma replaceEach_doubled_inj (c : ascii) :
  forall v1 v2 : string,
  replaceEach c (String c (String c "")) v1 = replaceEach c (String c (String c "")) v2 ->
  v1 = v2.
Proof.
  induction v1 as [|a v1 IH]; intros [|b v2]; cbn [replaceEach String.append].
  - reflexivity.
  - destruct (Ascii.eqb b c); discriminate.
  - destruct (Ascii.eqb a c); discriminate.
  - destruct (Ascii.eqb_spec a c) as [->|Na], (Ascii.eqb_spec b c) as [->|Nb];
      intros H; inversion H; subst.
    + f_equal. now apply IH.
    + congruence.
    + congruence.
    + f_equal. now apply IH.
Qed.

Lemma replaceEach_head (c e : ascii) (v r : string) :
  e <> c -> replaceEach c (String e (String c "")) v <> String c r.
Proof.
  intros Ne. destruct v as [|a v]; cbn [replaceEach String.append]; [discriminate|].
  destruct (Ascii.eqb_spec a c) as [->|Na]; intros H; inversion H; congruence.
Qed.

Lemma replaceEach_escaped_inj (c e : ascii) :
  e <> c ->
  forall v1 v2 : string,
  replaceEach c (String e (String c "")) v1 = replaceEach c (String e (String c "")) v2 ->
  v1 = v2.
Proof.
  intros Ne.
  induction v1 as [|a v1 IH]; intros [|b v2]; cbn [replaceEach String.append].
  - reflexivity.
  - destruct (Ascii.eqb b c); discriminate.
  - destruct (Ascii.eqb a c); discriminate.
  - destruct (Ascii.eqb_spec a c) as [->|Na], (Ascii.eqb_spec b c) as [->|Nb];
      intros H; inversion H; subst.
    + f_equal. now apply IH.
    + exfalso. symmetry in H2. now apply replaceEach_head in H2.
    + exfalso. now apply replaceEach_head in H2.
    + f_equal. now apply IH.
Qed.

(** X3: quoting loses nothing: two strings with the same double-quoted
    form are equal, and so are two strings with the same single-quoted
    form. *)
Theorem quoteModifier_Modify_injective (v1 v2 : string) :
  (quoteModifier_Modify DoubleQuotes (str v1) = quoteModifier_Modify DoubleQuotes (str v2) ->
   v1 = v2)
  /\ (quoteModifier_Modify SingleQuotes (str v1) = quoteModifier_Modify SingleQuotes (str v2) ->
      v1 = v2).
Proof.
  unfold quoteModifier_Modify.
  change (quoteModifier_String DoubleQuotes) with dquote.
  change (quoteModifier_String SingleQuotes) with squote.
  change (Sprint (str v1)) with v1. change (Sprint (str v2)) with v2.
  change (String.eqb DoubleQuotes NoQuotes) with false.
  change (String.eqb DoubleQuotes DoubleQuotes) with true.
  change (String.eqb SingleQuotes NoQuotes) with false.
  change (String.eqb SingleQuotes DoubleQuotes) with false.
  change (String.eqb SingleQuotes SingleQuotes) with true.
  cbv iota. split; intros H; apply append_inj_l in H; apply append_inj_r in H.
  - unfold dquote in H. rewrite !ReplaceAll_char in H.
    cbn [String.append] in H. now apply replaceEach_doubled_inj in H.
  - unfold squote, backslash_squote in H. rewrite !ReplaceAll_char in H.
    apply replaceEach_escaped_inj in H; [exact H|discriminate].
Qed.

(** X4: the text the equality modifier makes of a key never starts with a
    space; for a key that is not empty and does not start with a space it
    is the key followed by [ = ] under the equals modifier and by one
    space under any other. *)
Theorem equalsModifier_Modify_key (em : equalsModifier) (k : string) :
  strings.HasPrefix (equalsModifier_Modify em (str k)) " " = false
  /\ (k <> "" -> strings.HasPrefix k " " = false ->
      equalsModifier_Modify em (str k)
      = (k ++ (if String.eqb em Equals then " = " else " "))%string).
Proof.
  unfold equalsModifier_Modify. change (Sprint (str k)) with k. split.
  - destruct (String.eqb em Equals); apply TrimLeft_space_prefix.
  - intros Hk Hp. destruct k as [|c k]; [congruence|].
    assert (P : forall t, strings.HasPrefix (String c k ++ t) " " = false).
    { intros t. cbn [String.append strings.HasPrefix] in *. exact Hp. }
    destruct (String.eqb em Equals); apply TrimLeft_space_id, P.
Qed.

Lemma HasPrefix_app (m : string) :
  forall x post : string,
  strings.HasPrefix x m = true -> strings.HasPrefix (x ++ post) m = true.
Proof.
  induction m as [|c m IH]; intros x post; [reflexivity|].
  destruct x as [|a x]; cbn [strings.HasPrefix String.append]; [discriminate|].
  intros H. apply andb_true_iff in H. destruct H as [H1 H2].
  now rewrite H1, (IH x post H2).
Qed.

Lemma Contains_app_r (m x post : string) :
  strings.Contains x m = true -> strings.Contains (x ++ post) m = true.
Proof.
  induction x as [|a x IH]; cbn [strings.Contains String.append]; intros H.
  - rewrite orb_false_r in H. destruct m; [|discriminate].
    destruct post; reflexivity.
  - apply orb_true_iff in H. destruct H as [H|H].
    + change (String a (x ++ post)) with (String a x ++ post)%string.
      now rewrite (HasPrefix_app m _ post H).
    + rewrite (IH H). apply orb_true_r.
Qed.

Lemma Contains_app_l (m x pre : string) :
  strings.Contains x m = true -> strings.Contains (pre ++ x) m = true.
Proof.
  intros H. induction pre as [|a pre IH]; [exact H|].
  cbn [String.append strings.Contains]. rewrite IH. apply orb_true_r.
Qed.

Lemma splitFrom_parts (c : ascii) (s : string) :
  forall cur part : string,
  In part (strings.splitFrom (String c "") s 0 cur) ->
  exists pre post : string, (cur ++ s)%string = (pre ++ part ++ post)%string.
Proof.
  induction s as [|a s IH]; intros cur part;
    cbn [strings.splitFrom strings.HasPrefix String.length Nat.sub].
  - intros [<-|[]]. exists "", "". cbn [String.append]. now rewrite !append_nil_r.
  - rewrite andb_true_r. destruct (Ascii.eqb c a).
    + intros [<-|H].
      * exists "", (String a s). reflexivity.
      * destruct (IH "" part H) as (pre & post & E). cbn [String.append] in E.
        exists (cur ++ String a pre)%string, post.
        rewrite append_assoc. cbn [String.append]. now rewrite E.
    + intros H. destruct (IH _ part H) as (pre & post & E).
      exists pre, post. rewrite <- E, append_assoc. reflexivity.
Qed.

Lemma getModifierParts_default (parts : list string) (modType : modifierType)
    (defaultMod : string) :
  (forall part, In part parts -> strings.Contains part modType = false) ->
  getModifierParts parts modType defaultMod = defaultMod.
Proof.
  induction parts as [|part rest IH]; intros H; [reflexivity|].
  cbn [getModifierParts]. rewrite (H part (or_introl eq_refl)).
  cbn [andb]. apply IH. intros q Hq. apply H. now right.
Qed.

(** X5: a field whose tag does not mention a modifier family anywhere,
    in any letter case, gets the default modifier of the call site; so
    does a field without that tag. *)
Theorem getModifier_default (tag : StructTag) (tagName : string)
    (modType : modifierType) (defaultMod : string) :
  strings.Contains (strings.ToLower mapUnicodeToLower (Get tag tagName)) modType = false ->
  getModifier tag tagName modType defaultMod = defaultMod.
Proof.
  intros H. unfold getModifier.
  destruct (String.eqb (strings.ToLower mapUnicodeToLower (Get tag tagName)) ""); [reflexivity|].
  apply getModifierParts_default. intros part Hp.
  unfold strings.Split in Hp.
  destruct (splitFrom_parts _ _ _ _ Hp) as (pre & post & E).
  cbn [String.append] in E.
  destruct (strings.Contains part modType) eqn:C; [|reflexivity].
  rewrite E in H.
  now rewrite (Contains_app_l _ _ pre (Contains_app_r _ _ post C)) in H.
Qed.

(** ** The encoder as a whole *)

(** X6: given anything but a struct or a pointer to a struct (nil, a
    scalar, a slice, a nil pointer, a pointer to something else),
    [structToSQL] returns the error that names the kind found; it does
    not panic. *)
Theorem structToSQL_not_struct (s : any) :
  structKind s <> Struct ->
  structToSQL s
  = Err (Errorf ("expected struct, got " ++ Kind_String (structKind s))).
Proof.
  intros H. unfold structToSQL. rewrite parseStruct_eq.
  unfold parseStructBody, structValue, structKind in *.
  destruct s as [x|]; [|reflexivity].
  unfold indirect. cbn [ValueOf val].
  destruct (deref x) as [w|]; [|reflexivity]. cbn [val].
  destruct w as [b|n|t|m t u|p| |d|elems|m fields]; try reflexivity.
  now destruct H.
Qed.

Lemma prune_not_empty (clauses : list sqlClause) :
  Forall (fun c => clause_String c <> "") (prune clauses).
Proof.
  induction clauses as [|[c|] rest IH]; cbn [prune]; auto.
  destruct (String.eqb_spec (clause_String c) "") as [E|E]; cbn [negb]; auto.
Qed.


(** X7: every clause [parseStruct] returns renders to a text that is not
    empty. *)
Theorem parseStruct_clauses_not_empty (s : any) (clauses : list clause) :
  parseStruct s = Ok clauses ->
  Forall (fun c => clause_String c <> "") clauses.
Proof.
  rewrite parseStruct_eq. unfold parseStructBody.
  destruct (structValue s) as [v|]; [|discriminate].
  destruct (val v) as [b|n|t|m t u|p| |d|elems|m fields]; try discriminate.
  destruct (parseStructFields parseStruct v fields) as [cs|e|msg];
    cbn [bind]; try discriminate.
  intros H. inversion H. apply prune_not_empty.
Qed.

(** X8: a statement [structToSQL] returns neither starts nor ends with a
    space. *)
Theorem structToSQL_no_edge_spaces (s : any) (text : string) :
  structToSQL s = Ok text -> noEdgeSpaces text.
Proof.
  unfold structToSQL. destruct (parseStruct s) as [cs|e|msg]; try discriminate.
  intros H. inversion H. unfold sql, strings.Trim. split.
  - apply TrimRight_space_prefix, TrimLeft_space_prefix.
  - apply TrimRight_space_suffix.
Qed.

Section Fields.

Variable rec : any -> outcome (list clause).

(** The rounds of [parseStruct] depend on the struct through its two
    flags only. *)
Lemma parseStructFields_flags (v v' : Value) (fs : list (StructField * value)) :
  flagRO v = flagRO v' -> flagAddr v = flagAddr v' ->
  parseStructFields rec v fs = parseStructFields rec v' fs.
Proof.
  intros R A. induction fs as [|[f x] fs IH]; [reflexivity|].
  cbn [parseStructFields]. unfold parseStructField, Field.
  now rewrite R, A, IH.
Qed.





Lemma sliceElements_plain (f : StructField) (sv : Value) (elems : list value) :
  forallb plainElement elems = true ->
  sliceElements rec f (map (Index sv) elems)
  = Ok (map (fun e => Element (sqlStaticClause (Sprint (Some e)))) elems).
Proof.
  induction elems as [|e rest IH]; [reflexivity|].
  cbn [forallb]. intros H. apply andb_true_iff in H. destruct H as [He Hr].
  cbn [sliceElements map]. rewrite (IH Hr).
  rewrite getInterface_Ok by (now right). cbn [bind Index val].
  destruct e; try discriminate He; reflexivity.
Qed.

Lemma renderedElements_Element (cs : list clause) :
  renderedElements (map Element cs) = Ok cs.
Proof.
  induction cs as [|c cs IH]; [reflexivity|].
  cbn [map renderedElements]. now rewrite IH.
Qed.

End Fields.



Lemma Join_map_static (texts : list string) (sep : string) :
  strings.Join (map clause_String (map sqlStaticClause texts)) sep
  = strings.Join texts sep.
Proof. rewrite map_map. cbn [clause_String]. now rewrite map_id. Qed.

(** X11: a slice of booleans, integers and strings that is not empty is
    rendered as the textual forms of its elements joined by commas, empty
    ones included, passed through the parenthesis modifier; under the
    kind tag parameter that text is the value of a parameter clause, and
    under a kind tag that is neither parameter nor keyword it is the
    clause itself, with the spaces at its ends trimmed. *)
Theorem plain_slice_field (rec : any -> outcome (list clause))
    (f : StructField) (ro addr : bool) (e : value) (rest : list value) :
  forallb plainElement (e :: rest) = true ->
  let text :=
    strings.Trim
      (parenModifier_Modify
         (getModifier (Tag f) "ddl" parenModifierType NoParentheses)
         (str (strings.Join (map (fun x => Sprint (Some x)) (e :: rest)) ",")))
      " " in
  (ddlKind f = "parameter" ->
   parseFieldSlice rec f (mkValue ro addr (VSlice (e :: rest)))
   = Ok (Some (sqlParameterClause (Get (Tag f) "db") (clauseAsAny (sqlStaticClause text))
                 (getModifier (Tag f) "ddl" quoteModifierType NoQuotes)
                 (getModifier (Tag f) "ddl" equalsModifierType Equals)
                 (getModifier (Tag f) "ddl" reverseModifierType NoReverse))))
  /\ (ddlKind f <> "parameter" -> ddlKind f <> "keyword" ->
      parseFieldSlice rec f (mkValue ro addr (VSlice (e :: rest)))
      = Ok (Some (sqlStaticClause text))).
Proof.
  intros H text. unfold parseFieldSlice, indirect, elementsOf.
  cbn [deref val bind flagRO flagAddr].
  rewrite (sliceElements_plain rec f _ _ H). cbn [bind map].
  assert (R : renderedElements
                (Element (sqlStaticClause (Sprint (Some e)))
                 :: map (fun x => Element (sqlStaticClause (Sprint (Some x)))) rest)
              = Ok (map (fun x => sqlStaticClause (Sprint (Some x))) (e :: rest))).
  { rewrite <- (renderedElements_Element
                  (map (fun x => sqlStaticClause (Sprint (Some x))) (e :: rest))).
    cbn [map]. now rewrite map_map. }
  rewrite R. cbn [bind map].
  assert (T : renderStaticClause
                [Some (sqlListClause
                         (sqlStaticClause (Sprint (Some e))
                          :: map (fun x => sqlStaticClause (Sprint (Some x))) rest)
                         "," (getModifier (Tag f) "ddl" parenModifierType NoParentheses))]
              = sqlStaticClause text).
  { unfold renderStaticClause. rewrite sql_single. cbn [clause_String].
    change (sqlStaticClause (Sprint (Some e))
            :: map (fun x => sqlStaticClause (Sprint (Some x))) rest)
      with (map (fun x => sqlStaticClause (Sprint (Some x))) (e :: rest)).
    rewrite <- (map_map (fun x => Sprint (Some x)) sqlStaticClause).
    now rewrite Join_map_static. }
  rewrite T. split.
  - intros ->. reflexivity.
  - intros H1 H2. apply String.eqb_neq in H1, H2. now rewrite H1, H2.
Qed.

(** ** [grants.go], further *)

Lemma afterFirstDot_app (acct rest : string) :
  strings.Contains acct "." = false ->
  afterFirstDot (acct ++ "." ++ rest) = rest.
Proof.
  induction acct as [|a acct IH]; [reflexivity|].
  cbn [strings.Contains strings.HasPrefix String.append afterFirstDot].
  rewrite andb_true_r, (Ascii.eqb_sym "." a).
  destruct (Ascii.eqb a "."); [discriminate|]. exact IH.
Qed.

Lemma afterFirstDot_no_dot (acct : string) :
  strings.Contains acct "." = false -> afterFirstDot acct = "".
Proof.
  induction acct as [|a acct IH]; [reflexivity|].
  cbn [strings.Contains strings.HasPrefix afterFirstDot].
  rewrite andb_true_r, (Ascii.eqb_sym "." a).
  destruct (Ascii.eqb a "."); [discriminate|]. exact IH.
Qed.

(** X12: for a row granted to a share whose grantee name is an account
    part without dot, a dot, and a rest, the grantee of the grant is built
    from the rest, dots of the rest included; when the grantee name has no
    dot at all it is built from the empty string. *)
Theorem toGrant_share_grantee (row : grantRow) (acct rest : string) :
  row_GrantedTo row = ObjectTypeShare ->
  strings.Contains acct "." = false ->
  exists grant : Grant,
    toGrant row = Ok grant
    /\ (row_GranteeName row = (acct ++ "." ++ rest)%string ->
        Grant_GranteeName grant = NewAccountObjectIdentifier rest)
    /\ (row_GranteeName row = acct ->
        Grant_GranteeName grant = NewAccountObjectIdentifier "").
Proof.
  intros HT HA. unfold toGrant. eexists. split; [reflexivity|].
  cbn [Grant_GranteeName]. rewrite HT, String.eqb_refl, Split_dot, Join_tail_dotSegments.
  split; intros ->.
  - now rewrite afterFirstDot_app.
  - now rewrite afterFirstDot_no_dot.
Qed.

Lemma toGrants_rows (rows : list grantRow) :
  exists grants : list Grant,
    toGrants rows = Ok grants
    /\ Forall2 (fun row grant => toGrant row = Ok grant) rows grants.
Proof.
  induction rows as [|row rows (grants & E & F)].
  - exists []. split; [reflexivity|constructor].
  - cbn [toGrants]. rewrite E. unfold toGrant at 1. cbn [bind].
    eexists. split; [reflexivity|]. constructor; [reflexivity|exact F].
Qed.

(** X13: when the options pass the validation and encode to a statement,
    [Show] hands that statement to the client once; it returns one grant
    per row, in the order of the rows, each the conversion of its row, and
    it returns an error of the client as it is. *)
Theorem Show_rows (opts : ShowGrantsOptions) (text : string) :
  ShowGrantsOptions_validate opts = None ->
  structToSQL (reflectShowGrantsOptions opts) = Ok text ->
  (forall rows, query text = Ok rows ->
     exists grants,
       Show (Some opts) = ([Encoded (Ok text); Queried text], Ok grants)
       /\ Forall2 (fun row grant => toGrant row = Ok grant) rows grants)
  /\ (forall err, query text = Err err ->
        Show (Some opts) = ([Encoded (Ok text); Queried text], Err err)).
Proof.
  intros V E. unfold Show. rewrite V, E. split.
  - intros rows Q. rewrite Q.
    destruct (toGrants_rows rows) as (grants & G & F).
    exists grants. now rewrite G.
  - intros err Q. now rewrite Q.
Qed.

(** X14: both share operations check the share identifier first and the
    presence of the target and of the privilege second; when a check
    fails they return its error and neither encode nor execute. *)
Theorem share_operations_reject (objectPrivilege : Privilege)
    (on : option GrantPrivilegeToShareOn) (ron : option RevokePrivilegeFromShareOn)
    (id : AccountObjectIdentifier) :
  (validObjectidentifier (identifierMethods id) = false ->
   GrantPrivilegeToShare objectPrivilege on id = ([], Err ErrInvalidObjectIdentifier)
   /\ RevokePrivilegeFromShare objectPrivilege ron id
      = ([], Err ErrInvalidObjectIdentifier))
  /\ (validObjectidentifier (identifierMethods id) = true ->
      objectPrivilege = "" ->
      GrantPrivilegeToShare objectPrivilege on id
      = ([], Err (Errorf "on and objectPrivilege are required"))
      /\ RevokePrivilegeFromShare objectPrivilege ron id
         = ([], Err (Errorf "on and objectPrivilege are required")))
  /\ (validObjectidentifier (identifierMethods id) = true ->
      GrantPrivilegeToShare objectPrivilege None id
      = ([], Err (Errorf "on and objectPrivilege are required"))
      /\ RevokePrivilegeFromShare objectPrivilege None id
         = ([], Err (Errorf "on and objectPrivilege are required"))).
Proof.
  unfold GrantPrivilegeToShare, RevokePrivilegeFromShare,
    grantPrivilegeToShareOptions_validate, revokePrivilegeFromShareOptions_validate.
  cbn [opts_to opts_On opts_objectPrivilege ropts_from ropts_On ropts_objectPrivilege].
  repeat split.
  - now rewrite H.
  - now rewrite H.
  - rewrite H, H0. cbn [negb]. now rewrite orb_true_r.
  - rewrite H, H0. cbn [negb]. now rewrite orb_true_r.
  - now rewrite H.
  - now rewrite H.
Qed.

(** X15: the message of the first check of
    [RevokePrivilegeFromShareOn.validate] is never returned by the
    validation of the revoke options, which makes the same check itself
    before it calls that method. *)
Theorem revoke_selector_message_unreachable (opts : revokePrivilegeFromShareOptions) :
  revokePrivilegeFromShareOptions_validate opts
  <> Some (Errorf "only one of database, schema, table, or view can be set").
Proof.
  unfold revokePrivilegeFromShareOptions_validate.
  destruct (negb _); [discriminate|].
  destruct (_ || _); [discriminate|].
  destruct (ropts_On opts) as [on|]; [|discriminate].
  destruct (exactlyOneValueSet (revokeOnValues on)) eqn:E; cbn [negb]; [|discriminate].
  unfold RevokePrivilegeFromShareOn_validate. rewrite E. cbn [negb].
  destruct (valueSet _).
  - destruct (RevokeOn_Table on) as [t|]; [|discriminate].
    unfold OnTable_validate. destruct (negb _); discriminate.
  - destruct (valueSet _); [|discriminate].
    destruct (RevokeOn_View on) as [w|]; [|discriminate].
    unfold OnView_validate. destruct (negb _); discriminate.
Qed.

(** ** Statements of the share operations *)

Lemma fullyQualifiedName_end (i : ObjectIdentifierValue) :
  exists r : string, fullyQualifiedName i = (r ++ dquote)%string.
Proof.
  unfold fullyQualifiedName. induction (scopes i) as [|sc rest (r & E)].
  - exists (dquote ++ name i)%string. cbn [app map strings.Join].
    now rewrite append_assoc.
  - cbn [app map]. rewrite Join_cons.
    + rewrite E. exists (dquote ++ sc ++ dquote ++ "." ++ r)%string.
      now rewrite !append_assoc.
    + destruct rest; discriminate.
Qed.

Lemma HasSuffix_quoted (x : string) :
  strings.HasSuffix (x ++ dquote) " " = false.
Proof.
  induction x as [|c x IH]; [reflexivity|].
  cbn [String.append strings.HasSuffix]. rewrite IH, orb_false_r.
  apply String.eqb_neq. destruct x; discriminate.
Qed.

Lemma Trim_quoted (c : ascii) (x : string) :
  Ascii.eqb c " " = false ->
  strings.Trim (String c (x ++ dquote)) " " = String c (x ++ dquote).
Proof.
  intros H. apply Trim_space_id.
  - cbn [strings.HasPrefix]. now rewrite Ascii.eqb_sym, H.
  - apply (HasSuffix_quoted (String c x)).
Qed.

Section Rounds.

Variable rec : any -> outcome (list clause).

(** A field can be read by [getInterface] when it is exported and its
    struct is not read-only, or when its struct is addressable. *)
Definition readableField (sv : Value) (n : string) : Prop :=
  flagRO sv || negb (exportedName n) = false \/ flagAddr sv = true.

Lemma getInterface_Field (sv : Value) (n : string) (k : Kind) (ddl db : option string)
    (x : value) :
  readableField sv n ->
  getInterface (mkValue (flagRO sv || negb (IsExported (fld n k ddl db))) (flagAddr sv) x)
  = Ok (Value_Interface x).
Proof. intros H. now rewrite getInterface_Ok. Qed.

Lemma static_round (sv : Value) (n : string) (k : Kind) (t : string) (b : bool) :
  parseStructField rec sv (fld n k (Some "static") (Some t)) (VBool b)
  = Ok (Some (Some (sqlStaticClause t))).
Proof. reflexivity. Qed.

Lemma privilege_round (sv : Value) (n : string) (p : Privilege) :
  readableField sv n ->
  parseStructField rec sv (fld n String_ (Some "keyword") None) (reflectPrivilege p)
  = Ok (Some (Some (sqlStaticClause (strings.Trim p " ")))).
Proof.
  intros H. unfold parseStructField, parseField, renderStaticClause, indirect.
  cbn [Field deref reflectPrivilege val flagRO flagAddr KindOf Kind_eqb orb].
  rewrite (getInterface_Field sv n String_ (Some "keyword") None _ H).
  cbn -[sql]. now rewrite sql_single.
Qed.

Lemma identifier_round (sv : Value) (n : string) (t : string)
    (i : ObjectIdentifierValue) :
  readableField sv n ->
  parseStructField rec sv (fld n Struct (Some "identifier") (Some t)) (reflectIdentifier i)
  = Ok (Some (if String.eqb (name i) "" then None
              else Some (sqlIdentifierClause t (identifierMethods i) NoEquals))).
Proof.
  intros H. unfold parseStructField, reflectIdentifier, parseFieldStruct, indirect.
  cbn [Field deref val flagRO flagAddr KindOf Kind_eqb orb].
  rewrite (getInterface_Field sv n Struct (Some "identifier") (Some t) _ H).
  cbn -[String.eqb]. change (String.eqb "ddl" "ddl") with true. cbv iota.
  now destruct (String.eqb (name i) "").
Qed.

End Rounds.

Lemma HasSuffix_app (x y : string) :
  y <> "" -> strings.HasSuffix (x ++ y) " " = strings.HasSuffix y " ".
Proof.
  intros Hy. induction x as [|c x IH]; [reflexivity|].
  cbn [String.append strings.HasSuffix]. rewrite IH.
  replace (String.eqb (String c (x ++ y)) " ") with false; [reflexivity|].
  symmetry. apply String.eqb_neq. intros E. inversion E as [[E1 E2]].
  destruct x; [now apply Hy|discriminate].
Qed.

Lemma tidy_Trim (t : string) : tidy t -> strings.Trim t " " = t.
Proof. intros (_ & H1 & H2). now apply Trim_space_id. Qed.

Lemma tidy_cons_false (c : ascii) (t : string) :
  tidy (String c t) -> Ascii.eqb c " " = false.
Proof.
  intros (_ & H & _). cbn [strings.HasPrefix] in H.
  now rewrite andb_true_r, Ascii.eqb_sym in H.
Qed.

Lemma tidy_app (a sep b : string) :
  tidy a -> tidy b -> tidy (a ++ sep ++ b).
Proof.
  intros Ha Hb. destruct a as [|c a]; [now destruct Ha|].
  pose proof (tidy_cons_false _ _ Ha) as Hc.
  destruct Hb as (Nb & Pb & Sb). repeat split.
  - discriminate.
  - cbn [String.append strings.HasPrefix]. now rewrite andb_true_r, Ascii.eqb_sym.
  - rewrite <- append_assoc. now rewrite HasSuffix_app.
Qed.

Lemma tidy_Join (texts : list string) :
  texts <> [] -> Forall tidy texts -> tidy (strings.Join texts " ").
Proof.
  induction texts as [|t rest IH]; [congruence|]. intros _ F.
  inversion F as [|? ? Ht Hr]; subst.
  destruct rest as [|u rest]; [exact Ht|].
  rewrite Join_cons by discriminate.
  apply tidy_app; [exact Ht|]. apply IH; [discriminate|exact Hr].
Qed.

Lemma tidy_fullyQualifiedName (i : ObjectIdentifierValue) : tidy (fullyQualifiedName i).
Proof.
  destruct (fullyQualifiedName_end i) as (r & E).
  assert (P : exists r', fullyQualifiedName i = (dquote ++ r')%string).
  { unfold fullyQualifiedName.
    destruct (scopes i) as [|sc rest]; cbn [app map].
    - eexists. reflexivity.
    - rewrite Join_cons by (destruct rest; discriminate).
      eexists. rewrite !append_assoc. reflexivity. }
  destruct P as (r' & E'). repeat split.
  - rewrite E'. discriminate.
  - rewrite E'. reflexivity.
  - rewrite E. apply HasSuffix_quoted.
Qed.

Lemma tidy_Trim_not_empty (t : string) :
  strings.Trim t " " <> "" -> tidy (strings.Trim t " ").
Proof.
  intros H. split; [exact H|]. unfold strings.Trim. split.
  - apply TrimRight_space_prefix, TrimLeft_space_prefix.
  - apply TrimRight_space_suffix.
Qed.

Lemma sList_tidy (cs : list clause) :
  Forall (fun c => tidy (clause_String c)) cs ->
  sList (asSqlClauses cs) = map clause_String cs.
Proof.
  induction 1 as [|c cs (Hc & _) _ IH]; [reflexivity|].
  cbn [asSqlClauses map sList]. apply String.eqb_neq in Hc. rewrite Hc.
  cbn [negb]. f_equal. exact IH.
Qed.

Lemma prune_tidy (cs : list clause) :
  Forall (fun c => tidy (clause_String c)) cs -> prune (asSqlClauses cs) = cs.
Proof.
  induction 1 as [|c cs (Hc & _) _ IH]; [reflexivity|].
  cbn [asSqlClauses map prune]. apply String.eqb_neq in Hc. rewrite Hc.
  cbn [negb]. f_equal. exact IH.
Qed.

Lemma sql_tidy (cs : list clause) :
  cs <> [] -> Forall (fun c => tidy (clause_String c)) cs ->
  sql (asSqlClauses cs) = strings.Join (map clause_String cs) " ".
Proof.
  intros N F. unfold sql. rewrite (sList_tidy cs F). apply tidy_Trim, tidy_Join.
  - destruct cs; [congruence|discriminate].
  - clear N. induction F; constructor; auto.
Qed.

Lemma tidy_literal (c : ascii) (t : string) :
  Ascii.eqb c " " = false -> strings.HasSuffix (String c t) " " = false ->
  tidy (String c t).
Proof.
  intros H1 H2. repeat split; [discriminate| |exact H2].
  cbn [strings.HasPrefix]. now rewrite Ascii.eqb_sym, H1.
Qed.

Lemma identifier_text (keyword : string) (i : ObjectIdentifierValue) :
  tidy keyword ->
  clause_String (sqlIdentifierClause keyword (identifierMethods i) NoEquals)
  = (keyword ++ " " ++ fullyQualifiedName i)%string.
Proof.
  intros Hk. cbn [clause_String identifierMethods FullyQualifiedName].
  destruct keyword as [|c k]; [now destruct Hk|].
  pose proof (tidy_cons_false _ _ Hk) as Hc.
  change (negb (String.eqb (String c k) "")) with true. cbv iota.
  unfold equalsModifier_Modify. change (String.eqb NoEquals Equals) with false.
  cbv iota. change (Sprint (str (String c k))) with (String c k).
  rewrite TrimLeft_space_id.
  - now rewrite append_assoc.
  - cbn [String.append strings.HasPrefix]. now rewrite andb_true_r, Ascii.eqb_sym.
Qed.

Ltac tidy_lit := repeat split; try discriminate; try reflexivity.

Lemma prune_identifier (keyword : string) (i : ObjectIdentifierValue)
    (rest : list sqlClause) :
  tidy keyword ->
  prune ((if String.eqb (name i) "" then None
          else Some (sqlIdentifierClause keyword (identifierMethods i) NoEquals)) :: rest)
  = idClauses keyword i ++ prune rest.
Proof.
  intros Hk. unfold idClauses. destruct (String.eqb (name i) ""); [reflexivity|].
  cbn [prune app]. rewrite (identifier_text keyword i Hk).
  assert (T : tidy (keyword ++ " " ++ fullyQualifiedName i))
    by (apply tidy_app; [exact Hk|apply tidy_fullyQualifiedName]).
  destruct T as (N & _). apply String.eqb_neq in N. now rewrite N.
Qed.

Lemma idClauses_texts (keyword : string) (i : ObjectIdentifierValue) :
  tidy keyword ->
  map clause_String (idClauses keyword i) = idText keyword i
  /\ Forall (fun c => tidy (clause_String c)) (idClauses keyword i).
Proof.
  intros Hk. unfold idClauses, idText.
  destruct (String.eqb (name i) ""); [split; [reflexivity|constructor]|].
  cbn [map]. rewrite (identifier_text keyword i Hk). split; [reflexivity|].
  constructor; [|constructor]. rewrite (identifier_text keyword i Hk).
  apply tidy_app; [exact Hk|apply tidy_fullyQualifiedName].
Qed.

Lemma sql_tidy_any (cs : list clause) :
  Forall (fun c => tidy (clause_String c)) cs ->
  sql (asSqlClauses cs) = strings.Join (map clause_String cs) " ".
Proof.
  intros F. destruct cs as [|c cs]; [reflexivity|].
  apply sql_tidy; [discriminate|exact F].
Qed.

Lemma prune_static (t : string) (rest : list sqlClause) :
  prune (Some (sqlStaticClause t) :: rest)
  = (if String.eqb t "" then [] else [sqlStaticClause t]) ++ prune rest.
Proof. cbn [prune clause_String]. now destruct (String.eqb t ""). Qed.

Lemma Forall_tidy_app (a b : list clause) :
  Forall (fun c => tidy (clause_String c)) a ->
  Forall (fun c => tidy (clause_String c)) b ->
  Forall (fun c => tidy (clause_String c)) (a ++ b).
Proof. intros Ha Hb. apply Forall_app. now split. Qed.

Lemma tidy_texts_Join (cs : list clause) :
  Forall (fun c => tidy (clause_String c)) cs -> cs <> [] ->
  tidy (strings.Join (map clause_String cs) " ").
Proof.
  intros F N. apply tidy_Join.
  - destruct cs; [congruence|discriminate].
  - clear N. induction F; constructor; auto.
Qed.

(** The clauses of a group of identifier fields behind a pointer: one
    static clause of the joined texts, none when there is no text. *)
Lemma prune_group (cs : list clause) (rest : list sqlClause) :
  Forall (fun c => tidy (clause_String c)) cs ->
  prune (Some (renderStaticClause (asSqlClauses cs)) :: rest)
  = map sqlStaticClause (optionalGroup (map clause_String cs)) ++ prune rest.
Proof.
  intros F. unfold renderStaticClause. rewrite (sql_tidy_any cs F), prune_static.
  destruct cs as [|c cs]; [reflexivity|].
  pose proof (tidy_texts_Join (c :: cs) F ltac:(discriminate)) as (N & _).
  apply String.eqb_neq in N. rewrite N. reflexivity.
Qed.

Section Rounds2.

Variable rec : any -> outcome (list clause).

Lemma keyword_struct_round (sv : Value) (n t : string)
    (fields : list (StructField * value)) :
  parseStructField rec sv (fld n Ptr (Some "keyword") (Some t))
    (VPtr (Some (VStruct None fields)))
  = (cs <- rec (Some (VStruct None fields)) ;;
     Ok (Some (Some (renderStaticClause
                       (asSqlClauses (sqlKeywordClause (str t) NoQuotes :: cs)))))).
Proof.
  unfold parseStructField, parseFieldStruct, indirect.
  cbn [Field deref val flagRO flagAddr KindOf Kind_eqb orb].
  rewrite getInterface_Ok by (now right). cbn [bind val Value_Interface].
  destruct (rec (Some (VStruct None fields))); reflexivity.
Qed.

Lemma dash_struct_round (sv : Value) (n : string)
    (fields : list (StructField * value)) :
  parseStructField rec sv (fld n Ptr (Some "-") None) (VPtr (Some (VStruct None fields)))
  = (cs <- rec (Some (VStruct None fields)) ;;
     Ok (Some (Some (renderStaticClause (asSqlClauses cs))))).
Proof.
  unfold parseStructField, parseFieldStruct, indirect.
  cbn [Field deref val flagRO flagAddr KindOf Kind_eqb orb].
  rewrite getInterface_Ok by (now right). cbn [bind val Value_Interface].
  destruct (rec (Some (VStruct None fields))); reflexivity.
Qed.

Lemma nil_pointer_round (sv : Value) (f : StructField) :
  parseStructField rec sv f (VPtr None) = Ok None.
Proof. reflexivity. Qed.

End Rounds2.

Ltac readable := first [now left | now right].

Ltac rounds :=
  cbn [parseStructFields];
  rewrite ?static_round, ?nil_pointer_round;
  rewrite ?privilege_round by readable;
  rewrite ?identifier_round by readable;
  cbn [bind].

(** The body of [parseStruct] on a struct passed by value or by
    pointer. *)
Ltac struct_body :=
  unfold structValue, indirect;
  cbn [ValueOf deref val flagRO flagAddr KindOf Kind_eqb orb].

Lemma parseStruct_OnTable (v : OnTable) :
  parseStruct (Some (reflectOnTable v))
  = Ok (idClauses "TABLE" (OnTable_Name v)
        ++ idClauses "ALL TABLES IN SCHEMA" (OnTable_AllInSchema v)).
Proof.
  rewrite parseStruct_eq. unfold parseStructBody, reflectOnTable. struct_body. rounds.
  rewrite !prune_identifier by tidy_lit. cbn [prune]. now rewrite app_nil_r.
Qed.

Lemma parseStruct_OnView (v : OnView) :
  parseStruct (Some (reflectOnView v))
  = Ok (idClauses "VIEW" (OnView_Name v)
        ++ idClauses "ALL VIEWS IN SCHEMA" (OnView_AllInSchema v)).
Proof.
  rewrite parseStruct_eq. unfold parseStructBody, reflectOnView. struct_body. rounds.
  rewrite !prune_identifier by tidy_lit. cbn [prune]. now rewrite app_nil_r.
Qed.

Lemma OnTable_texts (v : OnTable) :
  map clause_String
    (idClauses "TABLE" (OnTable_Name v)
     ++ idClauses "ALL TABLES IN SCHEMA" (OnTable_AllInSchema v))
  = onTableTexts v
  /\ Forall (fun c => tidy (clause_String c))
       (idClauses "TABLE" (OnTable_Name v)
        ++ idClauses "ALL TABLES IN SCHEMA" (OnTable_AllInSchema v)).
Proof.
  destruct (idClauses_texts "TABLE" (OnTable_Name v) ltac:(tidy_lit)) as (E1 & F1).
  destruct (idClauses_texts "ALL TABLES IN SCHEMA" (OnTable_AllInSchema v)
              ltac:(tidy_lit)) as (E2 & F2).
  split; [|now apply Forall_tidy_app].
  unfold onTableTexts. now rewrite map_app, E1, E2.
Qed.

Lemma OnView_texts (v : OnView) :
  map clause_String
    (idClauses "VIEW" (OnView_Name v)
     ++ idClauses "ALL VIEWS IN SCHEMA" (OnView_AllInSchema v))
  = onViewTexts v
  /\ Forall (fun c => tidy (clause_String c))
       (idClauses "VIEW" (OnView_Name v)
        ++ idClauses "ALL VIEWS IN SCHEMA" (OnView_AllInSchema v)).
Proof.
  destruct (idClauses_texts "VIEW" (OnView_Name v) ltac:(tidy_lit)) as (E1 & F1).
  destruct (idClauses_texts "ALL VIEWS IN SCHEMA" (OnView_AllInSchema v)
              ltac:(tidy_lit)) as (E2 & F2).
  split; [|now apply Forall_tidy_app].
  unfold onViewTexts. now rewrite map_app, E1, E2.
Qed.

Lemma group_clauses (texts : list string) :
  Forall tidy texts ->
  map clause_String (map sqlStaticClause (optionalGroup texts)) = optionalGroup texts
  /\ Forall (fun c => tidy (clause_String c)) (map sqlStaticClause (optionalGroup texts)).
Proof.
  intros F. destruct texts as [|t rest]; [split; [reflexivity|constructor]|].
  split; [reflexivity|]. constructor; [|constructor].
  apply tidy_Join; [discriminate|exact F].
Qed.

Lemma Forall_tidy_texts (cs : list clause) :
  Forall (fun c => tidy (clause_String c)) cs -> Forall tidy (map clause_String cs).
Proof. induction 1; constructor; auto. Qed.

Lemma parseStruct_GrantOn (v : GrantPrivilegeToShareOn) :
  exists cs : list clause,
    parseStruct (Some (reflectGrantPrivilegeToShareOn v)) = Ok cs
    /\ map clause_String cs = grantOnTexts v
    /\ Forall (fun c => tidy (clause_String c)) cs.
Proof.
  destruct (idClauses_texts "DATABASE" (On_Database v) ltac:(tidy_lit)) as (E1 & F1).
  destruct (idClauses_texts "SCHEMA" (On_Schema v) ltac:(tidy_lit)) as (E2 & F2).
  destruct (idClauses_texts "FUNCTION" (On_Function v) ltac:(tidy_lit)) as (E3 & F3).
  destruct (idClauses_texts "VIEW" (On_View v) ltac:(tidy_lit)) as (E5 & F5).
  rewrite parseStruct_eq.
  unfold parseStructBody, reflectGrantPrivilegeToShareOn, grantOnTexts, ptrTo. struct_body.
  destruct (On_Table v) as [table|]; cbn [option_map].
  - destruct (OnTable_texts table) as (E4 & F4).
    pose proof (parseStruct_OnTable table) as P. unfold reflectOnTable in P.
    destruct (group_clauses (onTableTexts table)) as (E6 & F6);
      [rewrite <- E4; now apply Forall_tidy_texts|].
    eexists. split; [|split].
    + unfold reflectOnTable. rounds. rewrite dash_struct_round, P. rounds.
      rewrite !prune_identifier by tidy_lit. rewrite (prune_group _ _ F4).
      rewrite prune_identifier by tidy_lit. cbn [prune]. rewrite app_nil_r, E4.
      reflexivity.
    + now rewrite !map_app, E1, E2, E3, E5, E6.
    + repeat apply Forall_tidy_app; assumption.
  - eexists. split; [|split].
    + rounds. rewrite !prune_identifier by tidy_lit. cbn [prune]. rewrite app_nil_r.
      reflexivity.
    + now rewrite !map_app, E1, E2, E3, E5.
    + repeat apply Forall_tidy_app; assumption.
Qed.

Lemma keyword_group (keyword : string) (cs : list clause) (rest : list sqlClause) :
  tidy keyword ->
  Forall (fun c => tidy (clause_String c)) cs ->
  prune (Some (renderStaticClause
                 (asSqlClauses (sqlKeywordClause (str keyword) NoQuotes :: cs))) :: rest)
  = sqlStaticClause (group keyword (map clause_String cs)) :: prune rest.
Proof.
  intros Hk F.
  assert (F' : Forall (fun c => tidy (clause_String c))
                 (sqlKeywordClause (str keyword) NoQuotes :: cs))
    by (constructor; [exact Hk|exact F]).
  rewrite (prune_group _ _ F'). reflexivity.
Qed.

Lemma keywordText_clauses (p : string) (rest : list sqlClause) :
  prune (Some (sqlStaticClause (strings.Trim p " ")) :: rest)
  = map sqlStaticClause (keywordText p) ++ prune rest.
Proof.
  rewrite prune_static. unfold keywordText.
  now destruct (String.eqb (strings.Trim p " ") "").
Qed.

Lemma keywordText_tidy (p : string) :
  Forall (fun c => tidy (clause_String c)) (map sqlStaticClause (keywordText p)).
Proof.
  unfold keywordText.
  destruct (String.eqb_spec (strings.Trim p " ") "") as [E|E]; [constructor|].
  constructor; [|constructor]. now apply tidy_Trim_not_empty.
Qed.

Lemma map_static_texts (texts : list string) :
  map clause_String (map sqlStaticClause texts) = texts.
Proof. rewrite map_map. cbn [clause_String]. apply map_id. Qed.

Lemma grant_text (opts : grantPrivilegeToShareOptions) :
  structToSQL (reflectGrantPrivilegeToShareOptions opts) = Ok (grantText opts).
Proof.
  destruct (idClauses_texts "TO SHARE" (opts_to opts) ltac:(tidy_lit)) as (E4 & F4).
  pose proof (keywordText_tidy (opts_objectPrivilege opts)) as F2.
  unfold structToSQL, grantText. rewrite parseStruct_eq.
  unfold parseStructBody, reflectGrantPrivilegeToShareOptions. struct_body.
  unfold ptrTo.
  destruct (opts_On opts) as [on|]; cbn [option_map pointerPart].
  - destruct (parseStruct_GrantOn on) as (cs & P & E3 & F3).
    unfold reflectGrantPrivilegeToShareOn in P.
    unfold reflectGrantPrivilegeToShareOn. rounds.
    rewrite keyword_struct_round, P. rounds.
    rewrite (prune_static "GRANT"), keywordText_clauses,
      (keyword_group "ON" cs _ ltac:(tidy_lit) F3), prune_identifier by tidy_lit.
    cbn [prune String.eqb]. rewrite app_nil_r, E3.
    rewrite sql_tidy_any.
    + cbn [app map clause_String]. rewrite !map_app, map_static_texts.
      cbn [map clause_String]. now rewrite E4.
    + cbn [app]. constructor; [tidy_lit|]. apply Forall_tidy_app; [exact F2|].
      constructor; [|exact F4]. cbn [clause_String].
      apply tidy_Join; [discriminate|]. constructor; [tidy_lit|].
      rewrite <- E3. now apply Forall_tidy_texts.
  - rounds.
    rewrite (prune_static "GRANT"), keywordText_clauses, prune_identifier by tidy_lit.
    cbn [prune String.eqb]. rewrite app_nil_r.
    rewrite sql_tidy_any.
    + cbn [app map clause_String]. rewrite !map_app, map_static_texts. now rewrite E4.
    + cbn [app]. constructor; [tidy_lit|]. now apply Forall_tidy_app.
Qed.

Lemma parseStruct_RevokeOn (v : RevokePrivilegeFromShareOn) :
  exists cs : list clause,
    parseStruct (Some (reflectRevokePrivilegeFromShareOn v)) = Ok cs
    /\ map clause_String cs = revokeOnTexts v
    /\ Forall (fun c => tidy (clause_String c)) cs.
Proof.
  destruct (idClauses_texts "DATABASE" (RevokeOn_Database v) ltac:(tidy_lit)) as (E1 & F1).
  destruct (idClauses_texts "SCHEMA" (RevokeOn_Schema v) ltac:(tidy_lit)) as (E2 & F2).
  assert (T : forall table : OnTable,
            exists cs, parseStruct
                         (Some (VStruct None
                            [ (fld "Name" Struct (Some "identifier") (Some "TABLE"),
                               reflectIdentifier (OnTable_Name table));
                              (fld "AllInSchema" Struct (Some "identifier")
                                 (Some "ALL TABLES IN SCHEMA"),
                               reflectIdentifier (OnTable_AllInSchema table)) ])) = Ok cs
              /\ map clause_String cs = onTableTexts table
              /\ Forall (fun c => tidy (clause_String c)) cs).
  { intros table. destruct (OnTable_texts table) as (E & F).
    pose proof (parseStruct_OnTable table) as P. unfold reflectOnTable in P. eauto. }
  assert (W : forall view : OnView,
            exists cs, parseStruct
                         (Some (VStruct None
                            [ (fld "Name" Struct (Some "identifier") (Some "VIEW"),
                               reflectIdentifier (OnView_Name view));
                              (fld "AllInSchema" Struct (Some "identifier")
                                 (Some "ALL VIEWS IN SCHEMA"),
                               reflectIdentifier (OnView_AllInSchema view)) ])) = Ok cs
              /\ map clause_String cs = onViewTexts view
              /\ Forall (fun c => tidy (clause_String c)) cs).
  { intros view. destruct (OnView_texts view) as (E & F).
    pose proof (parseStruct_OnView view) as P. unfold reflectOnView in P. eauto. }
  rewrite parseStruct_eq.
  unfold parseStructBody, reflectRevokePrivilegeFromShareOn, revokeOnTexts, ptrTo,
    reflectOnTable, reflectOnView. struct_body.
  destruct (RevokeOn_Table v) as [table|], (RevokeOn_View v) as [view|];
    cbn [option_map];
    try (destruct (T table) as (ct & PT & ET & FT);
         destruct (group_clauses (onTableTexts table)) as (GT & HT);
           [rewrite <- ET; now apply Forall_tidy_texts|]);
    try (destruct (W view) as (cv & PV & EV & FV);
         destruct (group_clauses (onViewTexts view)) as (GV & HV);
           [rewrite <- EV; now apply Forall_tidy_texts|]).
  - eexists; split; [|split].
    + rounds. rewrite dash_struct_round, PT. rounds.
      rewrite dash_struct_round, PV. rounds.
      rewrite !prune_identifier by tidy_lit.
      rewrite (prune_group _ _ FT), (prune_group _ _ FV).
      cbn [prune]. rewrite app_nil_r, ET, EV. reflexivity.
    + rewrite !map_app, E1, E2, GT, GV; reflexivity.
    + repeat apply Forall_tidy_app; assumption.
  - eexists; split; [|split].
    + rounds. rewrite dash_struct_round, PT. rounds.
      rewrite !prune_identifier by tidy_lit. rewrite (prune_group _ _ FT).
      cbn [prune]. rewrite ET. reflexivity.
    + rewrite !map_app, E1, E2, GT; reflexivity.
    + repeat apply Forall_tidy_app; try assumption. constructor.
  - eexists; split; [|split].
    + rounds. rewrite dash_struct_round, PV. rounds.
      rewrite !prune_identifier by tidy_lit. rewrite (prune_group _ _ FV).
      cbn [prune]. rewrite app_nil_r, EV. reflexivity.
    + rewrite !map_app, E1, E2, GV; reflexivity.
    + cbn [app]. repeat apply Forall_tidy_app; assumption.
  - eexists; split; [|split].
    + rounds. rewrite !prune_identifier by tidy_lit. cbn [prune]. reflexivity.
    + rewrite !map_app, E1, E2; reflexivity.
    + repeat apply Forall_tidy_app; try assumption. constructor.
Qed.

Lemma revoke_text (opts : revokePrivilegeFromShareOptions) :
  structToSQL (reflectRevokePrivilegeFromShareOptions opts) = Ok (revokeText opts).
Proof.
  destruct (idClauses_texts "FROM SHARE" (ropts_from opts) ltac:(tidy_lit)) as (E4 & F4).
  pose proof (keywordText_tidy (ropts_objectPrivilege opts)) as F2.
  unfold structToSQL, revokeText. rewrite parseStruct_eq.
  unfold parseStructBody, reflectRevokePrivilegeFromShareOptions. struct_body.
  unfold ptrTo.
  destruct (ropts_On opts) as [on|]; cbn [option_map pointerPart].
  - destruct (parseStruct_RevokeOn on) as (cs & P & E3 & F3).
    unfold reflectRevokePrivilegeFromShareOn in P.
    unfold reflectRevokePrivilegeFromShareOn. rounds.
    rewrite keyword_struct_round, P. rounds.
    rewrite (prune_static "REVOKE"), keywordText_clauses,
      (keyword_group "ON" cs _ ltac:(tidy_lit) F3), prune_identifier by tidy_lit.
    cbn [prune String.eqb]. rewrite app_nil_r, E3.
    rewrite sql_tidy_any.
    + cbn [app map clause_String]. rewrite !map_app, map_static_texts.
      cbn [map clause_String]. now rewrite E4.
    + cbn [app]. constructor; [tidy_lit|]. apply Forall_tidy_app; [exact F2|].
      constructor; [|exact F4]. cbn [clause_String].
      apply tidy_Join; [discriminate|]. constructor; [tidy_lit|].
      rewrite <- E3. now apply Forall_tidy_texts.
  - rounds.
    rewrite (prune_static "REVOKE"), keywordText_clauses, prune_identifier by tidy_lit.
    cbn [prune String.eqb]. rewrite app_nil_r.
    rewrite sql_tidy_any.
    + cbn [app map clause_String]. rewrite !map_app, map_static_texts. now rewrite E4.
    + cbn [app]. constructor; [tidy_lit|]. now apply Forall_tidy_app.
Qed.

(** A pointer field with a keyword whose struct encodes to tidy texts:
    the round of [parseStruct] on it, and what pruning keeps of it. *)
Lemma pointer_group_round {A : Type} (reflectA : A -> value) (texts : A -> list string)
    (sv : Value) (n keyword : string) (p : option A) :
  tidy keyword ->
  (forall a, p = Some a ->
     exists fields cs,
       reflectA a = VStruct None fields
       /\ parseStruct (Some (VStruct None fields)) = Ok cs
       /\ map clause_String cs = texts a
       /\ Forall (fun c => tidy (clause_String c)) cs) ->
  exists oc : option sqlClause,
    parseStructField parseStruct sv (fld n Ptr (Some "keyword") (Some keyword))
      (ptrTo reflectA p) = Ok oc
    /\ (forall rest,
          prune (match oc with Some c => c :: rest | None => rest end)
          = map sqlStaticClause (pointerPart keyword texts p) ++ prune rest)
    /\ Forall tidy (pointerPart keyword texts p).
Proof.
  intros Hk H. unfold ptrTo. destruct p as [a|]; cbn [option_map pointerPart].
  - destruct (H a eq_refl) as (fields & cs & E & P & M & F).
    rewrite E, keyword_struct_round, P. cbn [bind].
    eexists. split; [reflexivity|]. split.
    + intros rest. cbv iota beta. rewrite <- M.
      exact (keyword_group keyword cs rest Hk F).
    + constructor; [|constructor]. apply tidy_Join; [discriminate|].
      constructor; [exact Hk|]. rewrite <- M. now apply Forall_tidy_texts.
  - exists None. split; [reflexivity|]. split; [reflexivity|constructor].
Qed.

Lemma parseStruct_ShowOn (v : ShowGrantsOn) :
  ShowOn_Object v = None ->
  exists fields cs,
    reflectShowGrantsOn v = VStruct None fields
    /\ parseStruct (Some (VStruct None fields)) = Ok cs
    /\ map clause_String cs = showOnTexts v
    /\ Forall (fun c => tidy (clause_String c)) cs.
Proof.
  intros HO. unfold reflectShowGrantsOn, showOnTexts. rewrite HO.
  destruct (ShowOn_Account v) as [[|]|];
    (eexists; eexists; split; [reflexivity|]; split; [|split];
     [ rewrite parseStruct_eq; reflexivity | reflexivity | ]).
  - constructor; [tidy_lit|constructor].
  - constructor.
  - constructor.
Qed.

Lemma parseStruct_ShowTo (v : ShowGrantsTo) :
  exists fields cs,
    reflectShowGrantsTo v = VStruct None fields
    /\ parseStruct (Some (VStruct None fields)) = Ok cs
    /\ map clause_String cs = showToTexts v
    /\ Forall (fun c => tidy (clause_String c)) cs.
Proof.
  destruct (idClauses_texts "ROLE" (ShowTo_Role v) ltac:(tidy_lit)) as (E1 & F1).
  destruct (idClauses_texts "USER" (ShowTo_User v) ltac:(tidy_lit)) as (E2 & F2).
  destruct (idClauses_texts "SHARE" (ShowTo_Share v) ltac:(tidy_lit)) as (E3 & F3).
  unfold reflectShowGrantsTo, showToTexts.
  eexists. eexists. split; [reflexivity|]. split; [|split].
  - rewrite parseStruct_eq. unfold parseStructBody. struct_body. rounds.
    rewrite !prune_identifier by tidy_lit. cbn [prune]. rewrite app_nil_r. reflexivity.
  - now rewrite !map_app, E1, E2, E3.
  - repeat apply Forall_tidy_app; assumption.
Qed.

Lemma parseStruct_ShowOf (v : ShowGrantsOf) :
  exists fields cs,
    reflectShowGrantsOf v = VStruct None fields
    /\ parseStruct (Some (VStruct None fields)) = Ok cs
    /\ map clause_String cs = showOfTexts v
    /\ Forall (fun c => tidy (clause_String c)) cs.
Proof.
  destruct (idClauses_texts "ROLE" (ShowOf_Role v) ltac:(tidy_lit)) as (E1 & F1).
  destruct (idClauses_texts "SHARE" (ShowOf_Share v) ltac:(tidy_lit)) as (E3 & F3).
  unfold reflectShowGrantsOf, showOfTexts.
  eexists. eexists. split; [reflexivity|]. split; [|split].
  - rewrite parseStruct_eq. unfold parseStructBody. struct_body. rounds.
    rewrite !prune_identifier by tidy_lit. cbn [prune]. rewrite app_nil_r. reflexivity.
  - now rewrite !map_app, E1, E3.
  - repeat apply Forall_tidy_app; assumption.
Qed.

Lemma show_text (opts : ShowGrantsOptions) :
  (forall on, Show_On opts = Some on -> ShowOn_Object on = None) ->
  structToSQL (reflectShowGrantsOptions opts) = Ok (showText opts).
Proof.
  intros HO.
  set (sv := mkValue false true (VStruct None [])).
  destruct (pointer_group_round reflectShowGrantsOn showOnTexts sv "On" "ON" (Show_On opts)
              ltac:(tidy_lit)) as (o1 & R1 & Q1 & T1).
  { intros on E. apply parseStruct_ShowOn. now apply HO. }
  destruct (pointer_group_round reflectShowGrantsTo showToTexts sv "To" "TO" (Show_To opts)
              ltac:(tidy_lit)) as (o2 & R2 & Q2 & T2).
  { intros v _. apply parseStruct_ShowTo. }
  destruct (pointer_group_round reflectShowGrantsOf showOfTexts sv "Of" "OF" (Show_Of opts)
              ltac:(tidy_lit)) as (o3 & R3 & Q3 & T3).
  { intros v _. apply parseStruct_ShowOf. }
  unfold structToSQL, showText. rewrite parseStruct_eq.
  unfold parseStructBody, reflectShowGrantsOptions. struct_body.
  match goal with
  | |- context [parseStructFields parseStruct ?v ?fs] =>
      rewrite (parseStructFields_flags parseStruct v sv fs eq_refl eq_refl)
  end.
  cbn [parseStructFields]. rewrite !static_round, R1, R2, R3. cbn [bind].
  rewrite (prune_static "SHOW"), (prune_static "GRANTS"), Q1, Q2, Q3.
  cbn [prune String.eqb app]. rewrite app_nil_r.
  rewrite sql_tidy_any.
  - cbn [map clause_String]. now rewrite !map_app, !map_static_texts.
  - constructor; [tidy_lit|]. constructor; [tidy_lit|].
    assert (G : forall l, Forall tidy l ->
                  Forall (fun c => tidy (clause_String c)) (map sqlStaticClause l)).
    { induction 1; constructor; auto. }
    repeat apply Forall_tidy_app; now apply G.
Qed.

(** X16: the statement of a grant, for every options value: GRANT, the
    privilege with the spaces at its ends trimmed (left out when nothing
    remains), then, when the target is given, ON followed by the
    identifiers of the target that have a name, each under its keyword
    and in the order database, schema, function, table, view, then TO
    SHARE and the share when it has a name, all joined by single spaces.
    The encoding returns no error. *)
Theorem grant_statement (opts : grantPrivilegeToShareOptions) :
  structToSQL (reflectGrantPrivilegeToShareOptions opts) = Ok (grantText opts).
Proof. apply grant_text. Qed.

(** X17: the statement of a revoke, for every options value: REVOKE, the
    trimmed privilege, ON with the named identifiers of the target in the
    order database, schema, table, view, and FROM SHARE with the share
    when it has a name, joined by single spaces; no error. *)
Theorem revoke_statement (opts : revokePrivilegeFromShareOptions) :
  structToSQL (reflectRevokePrivilegeFromShareOptions opts) = Ok (revokeText opts).
Proof. apply revoke_text. Qed.

(** X18: the statement of a show, for every options value whose ON part
    has no object: SHOW GRANTS, then for each selector given, in the order
    ON, TO, OF, its keyword followed by what it names (ACCOUNT when the
    flag is true; the role, user and share that have a name), joined by
    single spaces; no error. *)
Theorem show_statement (opts : ShowGrantsOptions) :
  (forall on, Show_On opts = Some on -> ShowOn_Object on = None) ->
  structToSQL (reflectShowGrantsOptions opts) = Ok (showText opts).
Proof. apply show_text. Qed.

(** X19: when the validation passes, each share operation builds its
    statement, hands exactly that statement to the client once, and
    returns the error of the client, nil included. *)
Theorem share_operations_execute (objectPrivilege : Privilege)
    (on : option GrantPrivilegeToShareOn) (ron : option RevokePrivilegeFromShareOn)
    (id : AccountObjectIdentifier) :
  (grantPrivilegeToShareOptions_validate
     (mkGrantPrivilegeToShareOptions false objectPrivilege on id) = None ->
   GrantPrivilegeToShare objectPrivilege on id
   = ([Built (Ok (grantText (mkGrantPrivilegeToShareOptions false objectPrivilege on id)));
       Executed (grantText (mkGrantPrivilegeToShareOptions false objectPrivilege on id))],
      match exec (grantText (mkGrantPrivilegeToShareOptions false objectPrivilege on id)) with
      | None => Ok tt
      | Some err => Err err
      end))
  /\ (revokePrivilegeFromShareOptions_validate
        (mkRevokePrivilegeFromShareOptions false objectPrivilege ron id) = None ->
      RevokePrivilegeFromShare objectPrivilege ron id
      = ([Built (Ok (revokeText
                       (mkRevokePrivilegeFromShareOptions false objectPrivilege ron id)));
          Executed (revokeText
                      (mkRevokePrivilegeFromShareOptions false objectPrivilege ron id))],
         match exec (revokeText
                       (mkRevokePrivilegeFromShareOptions false objectPrivilege ron id)) with
         | None => Ok tt
         | Some err => Err err
         end)).
Proof.
  split; intros V.
  - unfold GrantPrivilegeToShare, encodeAndExec. now rewrite V, grant_text.
  - unfold RevokePrivilegeFromShare, encodeAndExec. now rewrite V, revoke_text.
Qed.

Lemma valueSet_identAny (i : ObjectIdentifierValue) :
  valueSet (identAny i) = validObjectidentifier (identifierMethods i).
Proof. reflexivity. Qed.

Lemma empty_name_invalid (i : ObjectIdentifierValue) :
  name i = "" -> validObjectidentifier (identifierMethods i) = false.
Proof. unfold validObjectidentifier. cbn [identifierMethods Name]. now intros ->. Qed.

Lemma valid_name_not_empty (i : ObjectIdentifierValue) :
  validObjectidentifier (identifierMethods i) = true -> String.eqb (name i) "" = false.
Proof.
  unfold validObjectidentifier. cbn [identifierMethods Name].
  destruct (name i); [discriminate|reflexivity].
Qed.

(** X20: the validation of a grant does not look inside the table
    selector.  With a table selector that sets both the name and the
    schema, and no other selector, the grant passes its validation and
    executes a statement that names both, while the [validate] method of
    the target and the validation of a revoke reject the same selector. *)
Theorem grant_accepts_table_with_both (p : Privilege)
    (id n a e1 e2 e3 e4 : ObjectIdentifierValue) :
  validObjectidentifier (identifierMethods id) = true ->
  validObjectidentifier (identifierMethods n) = true ->
  validObjectidentifier (identifierMethods a) = true ->
  strings.Trim p " " <> "" ->
  name e1 = "" -> name e2 = "" -> name e3 = "" -> name e4 = "" ->
  fst (GrantPrivilegeToShare p
         (Some (mkGrantPrivilegeToShareOn e1 e2 e3 (Some (mkOnTable n a)) e4)) id)
  = [ Built (Ok ("GRANT " ++ strings.Trim p " " ++ " ON TABLE " ++ fullyQualifiedName n
                 ++ " ALL TABLES IN SCHEMA " ++ fullyQualifiedName a
                 ++ " TO SHARE " ++ fullyQualifiedName id)%string);
      Executed ("GRANT " ++ strings.Trim p " " ++ " ON TABLE " ++ fullyQualifiedName n
                ++ " ALL TABLES IN SCHEMA " ++ fullyQualifiedName a
                ++ " TO SHARE " ++ fullyQualifiedName id)%string ]
  /\ GrantPrivilegeToShareOn_validate
       (mkGrantPrivilegeToShareOn e1 e2 e3 (Some (mkOnTable n a)) e4)
     = Some (Errorf "only one of name or allInSchema can be set")
  /\ RevokePrivilegeFromShare p
       (Some (mkRevokePrivilegeFromShareOn e1 e2 (Some (mkOnTable n a)) None)) id
     = ([], Err (Errorf "only one of name or allInSchema can be set")).
Proof.
  intros Vid Vn Va Hp H1 H2 H3 H4.
  assert (Np : p <> "") by (intros ->; now apply Hp).
  apply String.eqb_neq in Np.
  assert (X : exactlyOneValueSet
                (grantOnValues (mkGrantPrivilegeToShareOn e1 e2 e3 (Some (mkOnTable n a)) e4))
              = true).
  { unfold exactlyOneValueSet, grantOnValues.
    cbn [On_Database On_Schema On_Function On_Table On_View filter].
    rewrite !valueSet_identAny, !empty_name_invalid by assumption. reflexivity. }
  assert (Y : exactlyOneValueSet
                (revokeOnValues (mkRevokePrivilegeFromShareOn e1 e2 (Some (mkOnTable n a)) None))
              = true).
  { unfold exactlyOneValueSet, revokeOnValues.
    cbn [RevokeOn_Database RevokeOn_Schema RevokeOn_Table RevokeOn_View filter].
    rewrite !valueSet_identAny, !empty_name_invalid by assumption. reflexivity. }
  assert (Z : OnTable_validate (mkOnTable n a)
              = Some (Errorf "only one of name or allInSchema can be set")).
  { unfold OnTable_validate, exactlyOneValueSet.
    cbn [OnTable_Name OnTable_AllInSchema filter].
    rewrite !valueSet_identAny, Vn, Va. reflexivity. }
  split; [|split].
  - unfold GrantPrivilegeToShare, grantPrivilegeToShareOptions_validate.
    cbn [opts_to opts_On opts_objectPrivilege]. rewrite Vid, Np, X.
    cbn [negb orb ptrTo option_map valueSet asIdentifier reflectGrantPrivilegeToShareOn].
    unfold encodeAndExec. rewrite grant_text. cbn [fst].
    unfold grantText, keywordText, pointerPart, group, grantOnTexts, onTableTexts, idText.
    cbn [opts_to opts_On opts_objectPrivilege On_Database On_Schema On_Function
         On_Table On_View OnTable_Name OnTable_AllInSchema].
    apply String.eqb_neq in Hp.
    rewrite Hp, H1, H2, H3, H4, !valid_name_not_empty by assumption.
    cbn [String.eqb app optionalGroup strings.Join].
    rewrite !append_assoc. reflexivity.
  - unfold GrantPrivilegeToShareOn_validate. rewrite X.
    cbn [negb On_Table]. exact Z.
  - unfold RevokePrivilegeFromShare, revokePrivilegeFromShareOptions_validate.
    cbn [ropts_from ropts_On ropts_objectPrivilege]. rewrite Vid, Np, Y.
    unfold RevokePrivilegeFromShareOn_validate. rewrite Y.
    cbn [negb orb RevokeOn_Table]. now rewrite Z.
Qed.

(** ** The object name of a grant *)

Lemma TrimRight_char_end (c : ascii) (x : string) :
  strings.HasSuffix x (String c "") = false ->
  strings.TrimRight (x ++ String c "") (String c "") = x.
Proof.
  induction x as [|a x IH].
  - intros _. cbn [String.append strings.TrimRight strings.inCutset].
    now rewrite Ascii.eqb_refl.
  - cbn [String.append strings.HasSuffix strings.TrimRight]. intros H.
    apply orb_false_elim in H. destruct H as [H1 H2]. rewrite (IH H2).
    destruct x as [|b x]; [|reflexivity].
    rewrite eqb_single in H1. cbn [strings.inCutset]. now rewrite H1.
Qed.

Lemma Trim_char_wrapped (c : ascii) (x : string) :
  strings.HasPrefix x (String c "") = false ->
  strings.HasSuffix x (String c "") = false ->
  strings.Trim (String c "" ++ x ++ String c "") (String c "") = x.
Proof.
  intros H1 H2. unfold strings.Trim.
  cbn [String.append strings.TrimLeft strings.inCutset]. rewrite Ascii.eqb_refl.
  cbn [orb]. destruct x as [|a x].
  - cbn [String.append strings.TrimLeft strings.inCutset]. rewrite Ascii.eqb_refl.
    reflexivity.
  - cbn [strings.HasPrefix] in H1. rewrite andb_true_r in H1.
    cbn [String.append strings.TrimLeft strings.inCutset].
    rewrite (Ascii.eqb_sym a c), H1. cbn [orb].
    now apply (TrimRight_char_end c (String a x)).
Qed.

(** X21: [toGrant] copies the creation time, the privilege, the two object
    types and the grant option of the row, builds the granter from the
    row's text, and builds the object name, which [Grant.ID] returns, from
    the row's name without the double quotes around it. *)
Theorem toGrant_copies_row (row : grantRow) (x : string) :
  exists grant : Grant,
    toGrant row = Ok grant
    /\ Grant_CreatedOn grant = row_CreatedOn row
    /\ Grant_Privilege grant = row_Privilege row
    /\ Grant_GrantedOn grant = row_GrantedOn row
    /\ Grant_GrantedTo grant = row_GrantedTo row
    /\ Grant_GrantOption grant = row_GrantOption row
    /\ Grant_GrantedBy grant = NewAccountObjectIdentifier (row_GrantedBy row)
    /\ (row_Name row = (dquote ++ x ++ dquote)%string ->
        strings.HasPrefix x dquote = false ->
        strings.HasSuffix x dquote = false ->
        Grant_ID grant = NewAccountObjectIdentifier x).
Proof.
  unfold toGrant. eexists. split; [reflexivity|].
  cbn [Grant_CreatedOn Grant_Privilege Grant_GrantedOn Grant_GrantedTo
       Grant_GrantOption Grant_GrantedBy Grant_ID Grant_Name].
  repeat split. intros E H1 H2. rewrite E.
  unfold dquote in *. now rewrite Trim_char_wrapped.
Qed.

End SDK.

(** * Closed instances *)

Lemma sql_joins_and_trims_witness :
  sql noText [Some (sqlStaticClause "SHOW"); None; Some (sqlStaticClause "");
              Some (sqlStaticClause "GRANTS")]
  = "SHOW GRANTS".
Proof.
  exact (proj2 (proj2 (proj2 (sql_joins_and_trims noText
           [Some (sqlStaticClause "SHOW"); None; Some (sqlStaticClause "");
            Some (sqlStaticClause "GRANTS")]))) eq_refl eq_refl).
Defined.

(** C7, as stated, fails on a clause whose text ends with a space: the
    text of the only clause is [k = ], the assembler returns [k =]. *)
Lemma sql_is_not_the_exact_join :
  clause_String noText keyOnlyParameter = "k = "
  /\ nonEmptyTexts noText [Some keyOnlyParameter] = ["k = "]
  /\ sql noText [Some keyOnlyParameter] = "k ="
  /\ sql noText [Some keyOnlyParameter]
     <> strings.Join (nonEmptyTexts noText [Some keyOnlyParameter]) " ".
Proof. repeat split. discriminate. Qed.

Lemma sqlParameterClause_String_witness :
  NoReverse <> Reverse /\ str "v" <> None
  /\ clause_String noText (sqlParameterClause "k" (str "v") DoubleQuotes Equals NoReverse)
     = ("k = " ++ dquote ++ "v" ++ dquote)%string.
Proof.
  split; [discriminate|]. split; [discriminate|].
  apply (proj1 (sqlParameterClause_String noText "k" (str "v") DoubleQuotes Equals
                  NoReverse));
    discriminate.
Defined.

(** C6, as stated, fails on a parameter clause that holds no value: it
    renders as its key part alone, not as the key part followed by the
    quote-modified value, which is the text of nil in quotes.  Such a
    clause is what a nil field of interface type gives. *)
Lemma parameter_without_value_is_key_only :
  clause_String noText (sqlParameterClause "k" None DoubleQuotes Equals NoReverse) = "k = "
  /\ (equalsModifier_Modify noText Equals (str "k")
      ++ quoteModifier_Modify noText DoubleQuotes None)%string
     = ("k = " ++ dquote ++ "<nil>" ++ dquote)%string
  /\ clause_String noText (sqlParameterClause "k" None DoubleQuotes Equals NoReverse)
     <> (equalsModifier_Modify noText Equals (str "k")
         ++ quoteModifier_Modify noText DoubleQuotes None)%string
  /\ structToSQL noLower noText (pointerTo [(valueField, VIface None)]) = Ok "K =".
Proof. repeat split. discriminate. Qed.

Lemma static_field_witness :
  ddlKind grantField = "static"
  /\ parseField noLower noText (parseStruct noLower noText) grantField
       (mkValue true true (VBool false))
     = Ok (Some (sqlStaticClause "GRANT")).
Proof.
  split; [reflexivity|].
  apply (static_field noLower noText (parseStruct noLower noText) grantField). reflexivity.
Defined.

(** C5, as stated, fails on a static field that is a nil pointer: the
    field is skipped and its name tag is not emitted. *)
Lemma static_nil_pointer_is_skipped :
  parseStruct noLower noText optionalStaticStruct = Ok []
  /\ structToSQL noLower noText optionalStaticStruct = Ok ""
  /\ structToSQL noLower noText optionalStaticStruct <> Ok "GRANT".
Proof. repeat split. discriminate. Qed.





Lemma identifier_field_empty_name_witness :
  ddlKind toField = "identifier" /\ Name emptyName = ""
  /\ parseFieldStruct noLower noText (parseStruct noLower noText) toField
       (mkValue true true (VStruct (Some emptyName) []))
     = Ok None.
Proof.
  split; [reflexivity|]. split; [reflexivity|].
  apply (proj1 (identifier_field_empty_name noLower noText (parseStruct noLower noText)
                  toField emptyName [] (mkValue true true (VStruct (Some emptyName) []))
                  eq_refl eq_refl eq_refl)).
  now right.
Defined.

(** C10, as stated, fails on an unexported field of a struct passed by
    value: for the share field of the grant options with an empty name the
    encoder does not return, it panics in [getInterface]; passed by
    pointer the same struct encodes to the empty statement. *)
Lemma empty_name_by_value_panics :
  validObjectidentifier (identifierMethods unnamed) = false
  /\ structToSQL noLower noText (structOf [(toField, reflectIdentifier unnamed)])
     = Panic UnaddressableValue
  /\ parseFieldStruct noLower noText (parseStruct noLower noText) toField
       (Field (ValueOf (VStruct None [])) toField (reflectIdentifier unnamed))
     = Panic UnaddressableValue
  /\ structToSQL noLower noText (pointerTo [(toField, reflectIdentifier unnamed)]) = Ok "".
Proof. repeat split. Qed.

Lemma toGrant_grantee_name_witness :
  exists grant,
    toGrant "SHARE" (mkObjectIdentifier []) (rowOf tt "SHARE" "ACME.S1.X") = Ok grant
    /\ Grant_GranteeName grant = mkObjectIdentifier [] "S1.X".
Proof.
  destruct (toGrant_grantee_name unit "SHARE" (mkObjectIdentifier [])
              (rowOf tt "SHARE" "ACME.S1.X")) as (grant & E & H & _).
  exists grant. split; [exact E|].
  destruct (H eq_refl) as [_ G]. exact G.
Defined.

Lemma Show_rejects_invalid_selectors_witness :
  exactlyOneValueSet (selectors twoSelectors) = false
  /\ exists err,
       ShowGrantsOptions_validate twoSelectors = Some err
       /\ Show noLower noText "SHARE" (mkObjectIdentifier []) (noRows unit)
            (Some twoSelectors)
          = ([], Err err).
Proof.
  split; [reflexivity|].
  apply (Show_rejects_invalid_selectors noLower noText unit "SHARE" (mkObjectIdentifier [])
           (noRows unit) twoSelectors).
  right. reflexivity.
Defined.

(** ** Closed instances of the further properties *)

Lemma reverseModifier_Modify_order_witness :
  NoReverse <> Reverse
  /\ reverseModifier_Modify NoReverse ["a"; "b"; "c"] = "a b c"
  /\ reverseModifier_Modify Reverse ["a"; "b"; "c"] = "c b a".
Proof.
  split; [discriminate|]. split.
  - apply (proj2 (reverseModifier_Modify_order NoReverse ["a"; "b"; "c"])). discriminate.
  - apply (proj1 (reverseModifier_Modify_order NoReverse ["a"; "b"; "c"])).
Defined.

Lemma quoteModifier_Modify_plain_witness :
  strings.Contains "a\b" squote = false
  /\ quoteModifier_Modify noText SingleQuotes (str "a\b") = "'a\b'".
Proof.
  split; [reflexivity|].
  apply (proj2 (quoteModifier_Modify_plain noText "a\b")). reflexivity.
Defined.

Lemma quoteModifier_Modify_injective_witness :
  quoteModifier_Modify noText DoubleQuotes (str "a")
  = quoteModifier_Modify noText DoubleQuotes (str "a")
  /\ "a" = "a".
Proof.
  split; [reflexivity|].
  apply (proj1 (quoteModifier_Modify_injective noText "a" "a")). reflexivity.
Defined.

Lemma equalsModifier_Modify_key_witness :
  "KEY" <> "" /\ strings.HasPrefix "KEY" " " = false
  /\ equalsModifier_Modify noText Equals (str "KEY") = "KEY = ".
Proof.
  split; [discriminate|]. split; [reflexivity|].
  apply (proj2 (equalsModifier_Modify_key noText Equals "KEY"));
    [discriminate|reflexivity].
Defined.

Lemma getModifier_default_witness :
  strings.Contains (strings.ToLower noLower (Get (Tag privilegeField) "ddl"))
    quoteModifierType = false
  /\ getModifier noLower (Tag privilegeField) "ddl" quoteModifierType NoQuotes = NoQuotes.
Proof.
  split; [reflexivity|].
  apply (getModifier_default noLower (Tag privilegeField) "ddl" quoteModifierType NoQuotes).
  reflexivity.
Defined.

Lemma structToSQL_not_struct_witness :
  structKind (Some (VSlice [])) <> Struct
  /\ structToSQL noLower noText (Some (VSlice []))
     = Err (Errorf "expected struct, got slice").
Proof.
  split; [discriminate|].
  apply (structToSQL_not_struct noLower noText (Some (VSlice []))). discriminate.
Defined.

Lemma parseStruct_clauses_not_empty_witness :
  parseStruct noLower noText
    (pointerTo [(grantField, VBool false); (privilegeField, reflectPrivilege "")])
  = Ok [sqlStaticClause "GRANT"]
  /\ Forall (fun c => clause_String noText c <> "") [sqlStaticClause "GRANT"].
Proof.
  split; [reflexivity|].
  apply (parseStruct_clauses_not_empty noLower noText
           (pointerTo [(grantField, VBool false); (privilegeField, reflectPrivilege "")])).
  reflexivity.
Defined.

Lemma structToSQL_no_edge_spaces_witness :
  structToSQL noLower noText (pointerTo [(privilegeField, reflectPrivilege " SELECT ")])
  = Ok "SELECT"
  /\ noEdgeSpaces "SELECT".
Proof.
  split; [reflexivity|].
  apply (structToSQL_no_edge_spaces noLower noText
           (pointerTo [(privilegeField, reflectPrivilege " SELECT ")])).
  reflexivity.
Defined.


Lemma plain_slice_field_witness :
  forallb plainElement [VString "a"; VString "b"; VString "c"] = true
  /\ parseFieldSlice noLower noText (parseStruct noLower noText) columnsField
       (mkValue true true (VSlice [VString "a"; VString "b"; VString "c"]))
     = Ok (Some (sqlStaticClause "(a,b,c)")).
Proof.
  split; [reflexivity|].
  apply (proj2 (plain_slice_field noLower noText (parseStruct noLower noText) columnsField
                  true true (VString "a") [VString "b"; VString "c"] eq_refl));
    discriminate.
Defined.

Lemma toGrant_share_grantee_witness :
  exists grant,
    toGrant "SHARE" (mkObjectIdentifier []) (rowOf tt "SHARE" "ACME.S1") = Ok grant
    /\ Grant_GranteeName grant = share1.
Proof.
  destruct (toGrant_share_grantee unit "SHARE" (mkObjectIdentifier [])
              (rowOf tt "SHARE" "ACME.S1") "ACME" "S1" eq_refl eq_refl)
    as (grant & E & H & _).
  exists grant. split; [exact E|]. exact (H eq_refl).
Defined.

Lemma Show_rows_witness :
  exists grants,
    Show noLower noText "SHARE" (mkObjectIdentifier [])
      (fun _ => Ok [rowOf tt "SHARE" "ACME.S1"; rowOf tt "ROLE" "R2"]) (Some toRole)
    = ([Encoded (Ok ("SHOW GRANTS TO ROLE " ++ dquote ++ "R1" ++ dquote)%string);
        Queried ("SHOW GRANTS TO ROLE " ++ dquote ++ "R1" ++ dquote)%string],
       Ok grants)
    /\ List.length grants = 2.
Proof.
  destruct (proj1 (Show_rows noLower noText unit "SHARE" (mkObjectIdentifier [])
                     (fun _ => Ok [rowOf tt "SHARE" "ACME.S1"; rowOf tt "ROLE" "R2"])
                     toRole ("SHOW GRANTS TO ROLE " ++ dquote ++ "R1" ++ dquote)%string
                     eq_refl eq_refl)
              [rowOf tt "SHARE" "ACME.S1"; rowOf tt "ROLE" "R2"] eq_refl)
    as (grants & E & F).
  exists grants. split; [exact E|].
  apply Forall2_length in F. symmetry. exact F.
Defined.

Lemma share_operations_reject_witness :
  validObjectidentifier (identifierMethods unnamed) = false
  /\ GrantPrivilegeToShare noLower noText noExec "SELECT" (Some onDatabase) unnamed
     = ([], Err ErrInvalidObjectIdentifier)
  /\ RevokePrivilegeFromShare noLower noText noExec "" None share1
     = ([], Err (Errorf "on and objectPrivilege are required")).
Proof.
  split; [reflexivity|]. split.
  - apply (proj1 (share_operations_reject noLower noText noExec "SELECT" (Some onDatabase)
                    None unnamed)). reflexivity.
  - apply (proj1 (proj2 (share_operations_reject noLower noText noExec "" None None
                           share1)));
      reflexivity.
Defined.

Lemma show_statement_witness :
  structToSQL noLower noText (reflectShowGrantsOptions toRole)
  = Ok ("SHOW GRANTS TO ROLE " ++ dquote ++ "R1" ++ dquote)%string.
Proof.
  apply (show_statement noLower noText toRole). intros on E. discriminate E.
Defined.

Lemma share_operations_execute_witness :
  grantPrivilegeToShareOptions_validate
    (mkGrantPrivilegeToShareOptions false "USAGE" (Some onDatabase) share1) = None
  /\ GrantPrivilegeToShare noLower noText noExec "USAGE" (Some onDatabase) share1
     = ([Built (Ok ("GRANT USAGE ON DATABASE " ++ dquote ++ "DB1" ++ dquote
                    ++ " TO SHARE " ++ dquote ++ "S1" ++ dquote)%string);
         Executed ("GRANT USAGE ON DATABASE " ++ dquote ++ "DB1" ++ dquote
                   ++ " TO SHARE " ++ dquote ++ "S1" ++ dquote)%string],
        Ok tt).
Proof.
  split; [reflexivity|].
  apply (proj1 (share_operations_execute noLower noText noExec "USAGE" (Some onDatabase)
                  None share1)).
  reflexivity.
Defined.

Lemma grant_accepts_table_with_both_witness :
  strings.Trim "SELECT" " " <> ""
  /\ fst (GrantPrivilegeToShare noLower noText noExec "SELECT"
            (Some (mkGrantPrivilegeToShareOn unnamed unnamed unnamed
                     (Some (mkOnTable table1 schema1)) unnamed)) share1)
     = [ Built (Ok ("GRANT SELECT ON TABLE " ++ fullyQualifiedName table1
                    ++ " ALL TABLES IN SCHEMA " ++ fullyQualifiedName schema1
                    ++ " TO SHARE " ++ fullyQualifiedName share1)%string);
         Executed ("GRANT SELECT ON TABLE " ++ fullyQualifiedName table1
                   ++ " ALL TABLES IN SCHEMA " ++ fullyQualifiedName schema1
                   ++ " TO SHARE " ++ fullyQualifiedName share1)%string ].
Proof.
  split; [discriminate|].
  apply (grant_accepts_table_with_both noLower noText noExec "SELECT" share1 table1 schema1
           unnamed unnamed unnamed unnamed);
    first [reflexivity | discriminate].
Defined.

Lemma toGrant_copies_row_witness :
  exists grant,
    toGrant "SHARE" (mkObjectIdentifier [])
      (mkGrantRow tt "USAGE" "DATABASE" (dquote ++ "DB1" ++ dquote) "ROLE" "R1" false "ADMIN")
    = Ok grant
    /\ Grant_ID grant = mkObjectIdentifier [] "DB1".
Proof.
  destruct (toGrant_copies_row unit "SHARE" (mkObjectIdentifier [])
              (mkGrantRow tt "USAGE" "DATABASE" (dquote ++ "DB1" ++ dquote)
                 "ROLE" "R1" false "ADMIN") "DB1")
    as (grant & E & _ & _ & _ & _ & _ & _ & H).
  exists grant. split; [exact E|]. apply H; reflexivity.
Defined.
